(** * WatchTogether signaling: a shallow embedding of the relay server
      (the Node [ws] server), the client transport (src/lib/signaling.ts) and the
      peer-connection manager (src/lib/webrtc.ts). *)

From Stdlib Require Import String ZArith Lia.
From stdpp Require Import base gmap strings list.

Open Scope string_scope.
Open Scope list_scope.

(* ------------------------------------------------------------------ *)
(** ** Relay server: room registry and relay router *)

Module Server.

(** Socket handles are identified by a number; [ready ws] is
    [ws.readyState === 1] (OPEN) at the moment a handler runs. *)
Definition ws_t := nat.

Inductive role := Host | Viewer.

(** [connections.get(ws)] : [{ roomId, role, userId }] *)
Record meta := mkMeta { c_roomId : string; c_role : role; c_userId : string }.

(** [rooms.get(roomId)] : [{ host: WebSocket, viewers: Set<WebSocket> }];
    a JS [Set] iterates in insertion order, so it is a duplicate-free list. *)
Record room := mkRoom { host : ws_t; viewers : list ws_t }.

(** A parsed inbound JSON message (the fields the handlers destructure). *)
Record msg := mkMsg {
  mtype : string; roomId : string; userId : string; targetId : string;
  mdata : string; mtext : string; musername : string }.

(** Outbound frames [ws.send(JSON.stringify(...))]. *)
Inductive out :=
| OConnected (message : string)
| OError (message : string)
| ORoomCreated (roomId userId : string)
| ORoomJoined (roomId userId : string)
| OViewerJoined (roomId userId : string)
| OViewerLeft (roomId userId : string)
| OHostLeft (roomId : string)
| OForward (m : msg) (fromId : string)          (* [{...message, fromId}] *)
| OChat (roomId userId username text : string) (timestamp : Z).

Record server := mkServer {
  rooms : gmap string room;
  connections : gmap ws_t meta }.

Definition empty_server : server := mkServer ∅ ∅.

Definition sends := list (ws_t * out).

(** [Set.prototype.add] and [Set.prototype.delete]. *)
Definition set_add (x : ws_t) (s : list ws_t) : list ws_t :=
  if existsb (Nat.eqb x) s then s else s ++ [x].
Definition set_delete (x : ws_t) (s : list ws_t) : list ws_t :=
  List.filter (fun y => negb (Nat.eqb x y)) s.

Section Handlers.
Variable ready : ws_t -> bool.

Definition send_if_open (w : ws_t) (o : out) : sends :=
  if ready w then [(w, o)] else [].

Definition handleCreateRoom (ws : ws_t) (m : msg) (st : server) : server * sends :=
  match rooms st !! roomId m with
  | Some _ => (st, [(ws, OError "Room already exists")])
  | None =>
      (mkServer (<[roomId m := mkRoom ws []]> (rooms st))
                (<[ws := mkMeta (roomId m) Host (userId m)]> (connections st)),
       [(ws, ORoomCreated (roomId m) (userId m))])
  end.

Definition handleJoinRoom (ws : ws_t) (m : msg) (st : server) : server * sends :=
  match rooms st !! roomId m with
  | None => (st, [(ws, OError "Room not found")])
  | Some rm =>
      (mkServer (<[roomId m := mkRoom (host rm) (set_add ws (viewers rm))]> (rooms st))
                (<[ws := mkMeta (roomId m) Viewer (userId m)]> (connections st)),
       send_if_open (host rm) (OViewerJoined (roomId m) (userId m))
       ++ [(ws, ORoomJoined (roomId m) (userId m))])
  end.

(** The host's [for (const viewer of room.viewers) { ... break; }] loop. *)
Fixpoint forward_to_target (conns : gmap ws_t meta) (target : string)
         (vs : list ws_t) (payload : out) : sends :=
  match vs with
  | [] => []
  | v :: vs' =>
      match conns !! v with
      | Some vc =>
          if String.eqb (c_userId vc) target
          then send_if_open v payload
          else forward_to_target conns target vs' payload
      | None => forward_to_target conns target vs' payload
      end
  end.

Definition handleSignaling (ws : ws_t) (m : msg) (st : server) : server * sends :=
  match connections st !! ws with
  | Some c =>
      if String.eqb (c_roomId c) (roomId m) then
        match rooms st !! roomId m with
        | None => (st, [(ws, OError "Room not found")])
        | Some rm =>
            (st, match c_role c with
                 | Host => forward_to_target (connections st) (targetId m) (viewers rm)
                             (OForward m (c_userId c))
                 | Viewer => send_if_open (host rm) (OForward m (c_userId c))
                 end)
        end
      else (st, [(ws, OError "Not in this room")])
  | None => (st, [(ws, OError "Not in this room")])
  end.

Definition handleChatMessage (ws : ws_t) (m : msg) (now : Z) (st : server)
  : server * sends :=
  match connections st !! ws with
  | Some c =>
      if String.eqb (c_roomId c) (roomId m) then
        match rooms st !! roomId m with
        | None => (st, [])
        | Some rm =>
            let chat := OChat (roomId m) (userId m) (musername m) (mtext m) now in
            (st, send_if_open (host rm) chat
                 ++ map (fun v => (v, chat)) (List.filter (fun v => ready v) (viewers rm)))
        end
      else (st, [])
  | None => (st, [])
  end.

Definition removeFromRoom (ws : ws_t) (r : string) (c : meta) (st : server)
  : server * sends :=
  match rooms st !! r with
  | None => (st, [])
  | Some rm =>
      match c_role c with
      | Host =>
          (mkServer (delete r (rooms st)) (connections st),
           map (fun v => (v, OHostLeft r)) (List.filter (fun v => ready v) (viewers rm)))
      | Viewer =>
          (mkServer (<[r := mkRoom (host rm) (set_delete ws (viewers rm))]> (rooms st))
                    (connections st),
           send_if_open (host rm) (OViewerLeft r (c_userId c)))
      end
  end.

Definition handleLeaveRoom (ws : ws_t) (m : msg) (st : server) : server * sends :=
  match connections st !! ws with
  | Some c =>
      if String.eqb (c_roomId c) (roomId m) then removeFromRoom ws (roomId m) c st
      else (st, [])
  | None => (st, [])
  end.

Definition handleDisconnect (ws : ws_t) (st : server) : server * sends :=
  match connections st !! ws with
  | Some c => removeFromRoom ws (c_roomId c) c st
  | None => (st, [])
  end.

(** The [switch (message.type)] of the ['message'] listener. *)
Definition dispatch (ws : ws_t) (m : msg) (now : Z) (st : server) : server * sends :=
  if String.eqb (mtype m) "create-room" then handleCreateRoom ws m st
  else if String.eqb (mtype m) "join-room" then handleJoinRoom ws m st
  else if String.eqb (mtype m) "offer" then handleSignaling ws m st
  else if String.eqb (mtype m) "answer" then handleSignaling ws m st
  else if String.eqb (mtype m) "ice-candidate" then handleSignaling ws m st
  else if String.eqb (mtype m) "leave-room" then handleLeaveRoom ws m st
  else if String.eqb (mtype m) "chat-message" then handleChatMessage ws m now st
  else (st, []).

End Handlers.

(** Socket events seen by the server. [EMessage ws None _] is a frame whose
    [JSON.parse] failed. *)
Inductive event :=
| EConnect (ws : ws_t)
| EMessage (ws : ws_t) (payload : option msg) (now : Z)
| EClose (ws : ws_t)
| EError (ws : ws_t).

Definition step (ready : ws_t -> bool) (e : event) (st : server) : server * sends :=
  match e with
  | EConnect ws => (st, [(ws, OConnected "Connected to signaling server")])
  | EMessage ws None _ => (st, [(ws, OError "Invalid message format")])
  | EMessage ws (Some m) now => dispatch ready ws m now st
  | EClose ws => handleDisconnect ready ws st
  | EError ws => handleDisconnect ready ws st
  end.

(** A run: each event comes with the open/closed state of the sockets. *)
Fixpoint run (evs : list ((ws_t -> bool) * event)) (st : server) : server * sends :=
  match evs with
  | [] => (st, [])
  | (rd, e) :: rest =>
      let '(st1, o1) := step rd e st in
      let '(st2, o2) := run rest st1 in
      (st2, o1 ++ o2)
  end.

End Server.

(* ------------------------------------------------------------------ *)
(** ** Client transport: [SignalingService] of src/lib/signaling.ts *)

Module Transport.

(** [WebSocket.readyState] of the handle held in [this.ws]. *)
Inductive rstate := Connecting | Open | Closing | Closed.

Inductive crole := CHost | CViewer.

(** The serialized frames the service sends ([JSON.stringify(message)]);
    distinct messages serialize to distinct strings. *)
Inductive frame :=
| FCreateRoom (roomId userId : string)
| FJoinRoom (roomId userId : string)
| FLeaveRoom (roomId : string)
| FPing (ts : Z)
| FMsg (payload : string).

Record svc := mkSvc {
  ws : option rstate;                  (* [this.ws], [None] for [null] *)
  sendQueue : list frame;
  reconnectAttempts : nat;
  reconnectTimer : option Z;           (* [this.reconnectTimer], with its delay *)
  timerPending : bool;                 (* the [setTimeout] callback has not run *)
  intentionallyClosed : bool;
  autoReconnect : bool;
  isStarted : bool;
  heartbeatOn : bool;                  (* [this.heartbeatTimer !== null] *)
  currentRoomId : option string;
  currentUserId : option string;
  currentRole : option crole }.

Definition maxReconnectAttempts := 10.
Definition baseReconnectDelay : Z := 1000.

(** Initial field values of the class. *)
Definition init : svc :=
  mkSvc None [] 0 None false false true false false None None None.

(** What the service does to the outside world. [ATransmit f true] is a
    frame sent by the queue flush of [handleOpen]; [ATransmit f false] a
    frame sent directly by [safeSend] or the heartbeat. *)
Inductive act :=
| ATransmit (f : frame) (from_queue : bool)
| AEnqueue (f : frame)
| ANewSocket
| ASchedule (delay : Z)
| ACloseSocket.

(** Field setters. *)
Definition set_ws (s : svc) v := mkSvc v s.(sendQueue) s.(reconnectAttempts)
  s.(reconnectTimer) s.(timerPending) s.(intentionallyClosed) s.(autoReconnect)
  s.(isStarted) s.(heartbeatOn) s.(currentRoomId) s.(currentUserId) s.(currentRole).
Definition set_queue (s : svc) v := mkSvc s.(ws) v s.(reconnectAttempts)
  s.(reconnectTimer) s.(timerPending) s.(intentionallyClosed) s.(autoReconnect)
  s.(isStarted) s.(heartbeatOn) s.(currentRoomId) s.(currentUserId) s.(currentRole).
Definition set_attempts (s : svc) v := mkSvc s.(ws) s.(sendQueue) v
  s.(reconnectTimer) s.(timerPending) s.(intentionallyClosed) s.(autoReconnect)
  s.(isStarted) s.(heartbeatOn) s.(currentRoomId) s.(currentUserId) s.(currentRole).
Definition set_timer (s : svc) v p := mkSvc s.(ws) s.(sendQueue) s.(reconnectAttempts)
  v p s.(intentionallyClosed) s.(autoReconnect) s.(isStarted)
  s.(heartbeatOn) s.(currentRoomId) s.(currentUserId) s.(currentRole).
Definition set_heartbeat (s : svc) v := mkSvc s.(ws) s.(sendQueue) s.(reconnectAttempts)
  s.(reconnectTimer) s.(timerPending) s.(intentionallyClosed) s.(autoReconnect)
  s.(isStarted) v s.(currentRoomId) s.(currentUserId) s.(currentRole).
Definition set_current (s : svc) r u role := mkSvc s.(ws) s.(sendQueue)
  s.(reconnectAttempts) s.(reconnectTimer) s.(timerPending) s.(intentionallyClosed)
  s.(autoReconnect) s.(isStarted) s.(heartbeatOn) r u role.

(** [clearReconnectTimer()]. *)
Definition clearReconnectTimer (s : svc) : svc :=
  match s.(reconnectTimer) with
  | Some _ => set_timer s None false
  | None => s
  end.

(** JS truthiness of a [string | null] field. *)
Definition truthy (o : option string) : bool :=
  match o with Some x => negb (String.eqb x "") | None => false end.

(** [ws.send] may throw; [ok i] says whether the [i]-th [ws.send] call of
    the current handler succeeds. *)
Definition oracle := nat -> bool.

Definition scheduleReconnect (s : svc) : svc * list act :=
  if negb s.(autoReconnect) || negb s.(isStarted) then (s, []) else
  let n := S s.(reconnectAttempts) in
  let s1 := set_attempts s n in
  if Nat.ltb maxReconnectAttempts n then (s1, [])
  else
    let delay := (baseReconnectDelay * Z.min 30 (Z.of_nat n))%Z in
    (set_timer (clearReconnectTimer s1) (Some delay) true, [ASchedule delay]).

(** Whether [new WebSocket(WS_URL)] accepts the URL. [WS_URL] is a module
    constant (from [VITE_WS_URL], [window.__WS_URL__] or
    ['ws://localhost:5000']), so the constructor throws ([SyntaxError] on a
    malformed URL, [SecurityError] on a blocked port) on every call of a
    run or on none. *)
Class WsUrl := url_ok : bool.

Section WithUrl.
Context {wsu : WsUrl}.

(** [connect()]: [this.ws = new WebSocket(WS_URL)], or, when the
    constructor throws, the [catch] branch that calls [scheduleReconnect()]
    leaving [this.ws] as it was. *)
Definition connect (s : svc) : svc * list act :=
  match s.(ws) with
  | Some Open | Some Connecting => (s, [])
  | _ => if url_ok then (set_ws s (Some Connecting), [ANewSocket]) else scheduleReconnect s
  end.

(** [safeSend(message)]; [i] is the index of its [ws.send] call. *)
Definition safeSend (ok : oracle) (i : nat) (f : frame) (s : svc) : svc * list act :=
  match s.(ws) with
  | Some Open =>
      if ok i then (s, [ATransmit f false])
      else (set_queue s (s.(sendQueue) ++ [f]), [AEnqueue f])
  | Some Connecting => (set_queue s (s.(sendQueue) ++ [f]), [AEnqueue f])
  | _ =>
      let '(s1, a1) := connect (set_queue s (s.(sendQueue) ++ [f])) in
      (s1, AEnqueue f :: a1)
  end.

Definition createRoom (ok : oracle) (i : nat) (r u : string) (s : svc) :=
  safeSend ok i (FCreateRoom r u) (set_current s (Some r) (Some u) (Some CHost)).

Definition joinRoom (ok : oracle) (i : nat) (r u : string) (s : svc) :=
  safeSend ok i (FJoinRoom r u) (set_current s (Some r) (Some u) (Some CViewer)).

Definition leaveRoom (ok : oracle) (roomId : option string) (s : svc) : svc * list act :=
  let rid := match roomId with Some r => Some r | None => s.(currentRoomId) end in
  match rid with
  | Some r =>
      if truthy rid then
        let '(s1, a1) := safeSend ok 0 (FLeaveRoom r) s in
        (set_current s1 None None None, a1)
      else (s, [])
  | None => (s, [])
  end.

(** The flush loop of [handleOpen]: [shift], [ws.send], and on a throw
    [unshift] and [break]. Returns the queue, the frames sent and the next
    [ws.send] index. *)
Fixpoint flush (ok : oracle) (i : nat) (q : list frame) : list frame * list frame * nat :=
  match q with
  | [] => ([], [], i)
  | p :: q' =>
      if ok i then
        let '(rest, sent, j) := flush ok (S i) q' in (rest, p :: sent, j)
      else (p :: q', [], S i)
  end.

Definition handleOpen (ok : oracle) (s : svc) : svc * list act :=
  let s0 := set_attempts s 0 in
  let '(s1, a1, j) :=
    match s0.(ws) with
    | Some Open =>
        let '(q, sent, j) := flush ok 0 s0.(sendQueue) in
        (set_queue s0 q, map (fun f => ATransmit f true) sent, j)
    | _ => (s0, [], 0)
    end in
  let s2 := set_heartbeat s1 true in
  match s2.(currentRoomId), s2.(currentUserId), s2.(currentRole) with
  | Some r, Some u, Some role =>
      if truthy (Some r) && truthy (Some u) then
        let '(s3, a3) :=
          match role with
          | CHost => createRoom ok j r u s2
          | CViewer => joinRoom ok j r u s2
          end in (s3, a1 ++ a3)
      else (s2, a1)
  | _, _, _ => (s2, a1)
  end.

Definition handleClose (s : svc) : svc * list act :=
  let s1 := set_heartbeat (set_ws s None) false in
  if negb s1.(intentionallyClosed) && s1.(autoReconnect) && s1.(isStarted)
  then scheduleReconnect s1 else (s1, []).

Definition start (autoConnect : bool) (s : svc) : svc * list act :=
  if s.(isStarted) then (s, []) else
  let s1 := mkSvc s.(ws) s.(sendQueue) s.(reconnectAttempts) s.(reconnectTimer)
              s.(timerPending) false true true s.(heartbeatOn)
              s.(currentRoomId) s.(currentUserId) s.(currentRole) in
  if autoConnect then connect s1 else (s1, []).

Definition stop (s : svc) : svc * list act :=
  (mkSvc None [] s.(reconnectAttempts) None false true false false false None None None,
   match s.(ws) with Some _ => [ACloseSocket] | None => [] end).

(** Calls of the public API and events of the socket and of the timers.
    [SockOpened]: the handle in [this.ws] opens. [StaleOpen] / [StaleClose]:
    the [onopen] / [onclose] of a socket no longer held in [this.ws] runs
    (its handler is bound to the service, not to the socket). *)
Inductive input :=
| IStart (autoConnect : bool)
| IStop
| ISafeSend (f : frame) (ok : oracle)
| ICreateRoom (r u : string) (ok : oracle)
| IJoinRoom (r u : string) (ok : oracle)
| ILeaveRoom (r : option string) (ok : oracle)
| SockOpened (ok : oracle)
| SockClosing
| SockClosed
| StaleOpen (ok : oracle)
| StaleClose
| TimerFired
| HeartbeatTick (ok : oracle) (ts : Z).

Definition tstep (e : input) (s : svc) : svc * list act :=
  match e with
  | IStart a => start a s
  | IStop => stop s
  | ISafeSend f ok => safeSend ok 0 f s
  | ICreateRoom r u ok => createRoom ok 0 r u s
  | IJoinRoom r u ok => joinRoom ok 0 r u s
  | ILeaveRoom r ok => leaveRoom ok r s
  | SockOpened ok =>
      match s.(ws) with
      | Some Connecting => handleOpen ok (set_ws s (Some Open))
      | _ => (s, [])
      end
  | SockClosing =>
      match s.(ws) with
      | Some Open | Some Connecting => (set_ws s (Some Closing), [])
      | _ => (s, [])
      end
  | SockClosed =>
      match s.(ws) with
      | Some _ => handleClose (set_ws s (Some Closed))
      | None => (s, [])
      end
  | StaleOpen ok => handleOpen ok s
  | StaleClose => handleClose s
  | TimerFired =>
      if s.(timerPending) then connect (set_timer s s.(reconnectTimer) false)
      else (s, [])
  | HeartbeatTick ok ts =>
      if s.(heartbeatOn) then
        match s.(ws) with
        | Some Open => (s, if ok 0 then [ATransmit (FPing ts) false] else [])
        | _ => (s, [])
        end
      else (s, [])
  end.

Fixpoint trun (es : list input) (s : svc) : svc * list act :=
  match es with
  | [] => (s, [])
  | e :: rest =>
      let '(s1, a1) := tstep e s in
      let '(s2, a2) := trun rest s1 in
      (s2, a1 ++ a2)
  end.

End WithUrl.

End Transport.

(* ------------------------------------------------------------------ *)
(** ** Connection orchestrator: [WebRTCManager] of src/lib/webrtc.ts and
       the ICE handler of src/pages/Host.tsx *)

Module Orchestrator.

(** An [RTCPeerConnection] / [RTCDataChannel] object is named by a number. *)
Definition handle := nat.

(** [PeerConnection { id, connection, dataChannel? }] *)
Record peer := mkPeer { pid : string; connection : handle; dataChannel : option handle }.

Record mgr := mkMgr {
  peerConnections : gmap string peer;
  localStream : option (list string);   (* the tracks of the captured stream *)
  next_handle : nat }.                  (* fresh object names *)

Definition init : mgr := mkMgr ∅ None 0.

(** Calls the manager makes on the browser's peer-connection objects. *)
Inductive api :=
| ANewPeerConnection (h : handle)
| AAddTrack (h : handle) (track : string)
| ACreateDataChannel (h : handle) (label : string) (dc : handle)
| ASetRemoteDescription (h : handle) (desc : string)
| AAddIceCandidate (h : handle) (candidate : string)
| ACloseChannel (dc : handle)
| AClose (h : handle).

(** A method's outcome: its return value or the [Error] it throws. *)
Inductive result (A : Type) := Ok (a : A) | Throw (message : string).
Arguments Ok {A} a.
Arguments Throw {A} message.

Definition createHostConnection (peerId : string) (st : mgr) : mgr * list api :=
  let h := next_handle st in
  let dc := S h in
  let tracks := match localStream st with
                | Some ts => map (AAddTrack h) ts
                | None => []
                end in
  (mkMgr (<[peerId := mkPeer peerId h (Some dc)]> (peerConnections st))
         (localStream st) (S dc),
   [ANewPeerConnection h] ++ tracks ++ [ACreateDataChannel h "chat" dc]).

Definition createViewerConnection (peerId : string) (st : mgr) : mgr * list api :=
  let h := next_handle st in
  (mkMgr (<[peerId := mkPeer peerId h None]> (peerConnections st))
         (localStream st) (S h),
   [ANewPeerConnection h]).

(** The browser's side of the connection objects, which the manager reaches
    only through their methods: the connections on which a remote
    description has been set ([pc.remoteDescription !== null]), and whether
    the browser accepts a given description or candidate on a connection
    (it rejects, for one, a malformed one). *)
Record browser := mkBrowser {
  remote_set : list handle;
  accepts_desc : handle -> string -> bool;
  accepts_cand : handle -> string -> bool }.

(** [pc.setRemoteDescription(desc)], awaited: it rejects when the browser
    refuses the description; otherwise the connection has a remote
    description from then on. *)
Definition pc_setRemoteDescription (h : handle) (desc : string) (b : browser)
  : result unit * browser :=
  if accepts_desc b h desc
  then (Ok tt, mkBrowser (h :: remote_set b) (accepts_desc b) (accepts_cand b))
  else (Throw "OperationError", b).

(** [pc.addIceCandidate(candidate)], awaited: it rejects with an
    [InvalidStateError] while the connection has no remote description
    (WebRTC 1.0, [addIceCandidate]), and otherwise when the browser cannot
    apply the candidate. *)
Definition pc_addIceCandidate (h : handle) (candidate : string) (b : browser) : result unit :=
  if existsb (Nat.eqb h) (remote_set b)
  then (if accepts_cand b h candidate then Ok tt else Throw "OperationError")
  else Throw "InvalidStateError".

(** [setRemoteDescription(peerId, description)]: looks the peer up and
    awaits [peer.connection.setRemoteDescription]; a rejection propagates. *)
Definition setRemoteDescription (peerId desc : string) (st : mgr) (b : browser)
  : result unit * list api * browser :=
  match peerConnections st !! peerId with
  | None => (Throw "Peer connection not found", [], b)
  | Some p =>
      let '(r, b') := pc_setRemoteDescription (connection p) desc b in
      (r, [ASetRemoteDescription (connection p) desc], b')
  end.

(** [addIceCandidate(peerId, candidate)]: looks the peer up and hands the
    candidate to [peer.connection.addIceCandidate] at once, awaiting it; a
    rejection propagates. *)
Definition addIceCandidate (peerId candidate : string) (st : mgr) (b : browser)
  : result unit * list api :=
  match peerConnections st !! peerId with
  | None => (Throw "Peer connection not found", [])
  | Some p => (pc_addIceCandidate (connection p) candidate b,
               [AAddIceCandidate (connection p) candidate])
  end.

Definition closePeerConnection (peerId : string) (st : mgr) : mgr * list api :=
  match peerConnections st !! peerId with
  | None => (st, [])
  | Some p =>
      (mkMgr (delete peerId (peerConnections st)) (localStream st) (next_handle st),
       match dataChannel p with Some dc => [ACloseChannel dc] | None => [] end
       ++ [AClose (connection p)])
  end.





(** A browser on which no remote description has been set yet and which
    accepts every description and candidate. *)
Definition fresh_browser : browser := mkBrowser [] (fun _ _ => true) (fun _ _ => true).

End Orchestrator.

(* ------------------------------------------------------------------ *)
(** ** Notions used to state the properties *)

Module ServerSpec.
Import Server.

(** Viewer [x] does not carry the peer identifier [t]. *)
Definition no_match (conns : gmap ws_t meta) (t : string) (x : ws_t) : Prop :=
  match conns !! x with Some vc => c_userId vc <> t | None => True end.

(** No viewer set holds a connection twice. *)
Definition viewers_nodup (st : server) : Prop :=
  forall r rm, rooms st !! r = Some rm -> List.NoDup (viewers rm).

Definition is_relay_type (t : string) : Prop :=
  t = "offer" \/ t = "answer" \/ t = "ice-candidate".

End ServerSpec.

(** Concrete inputs for the examples and witnesses. *)
Module ServerSamples.
Import Server.

Definition all_open : ws_t -> bool := fun _ => true.

Definition mk (t r u : string) : msg := mkMsg t r u "" "" "" "".
Definition mkT (t r u tgt : string) : msg := mkMsg t r u tgt "sdp" "" "".

Definition ev (ws : ws_t) (m : msg) : (ws_t -> bool) * event :=
  (all_open, EMessage ws (Some m) 0%Z).

(** Host 1 creates ["r1"] as ["h"], viewer 2 joins as ["v1"]. *)
Definition setup : list ((ws_t -> bool) * event) :=
  [ev 1 (mk "create-room" "r1" "h"); ev 2 (mk "join-room" "r1" "v1")].

Definition st_setup : server := fst (run setup empty_server).

End ServerSamples.

(** Notions for the transport properties. *)
Module TransportSpec.
Import Transport.

(** Frames pushed onto [sendQueue], in push order. *)
Fixpoint enqueued (a : list act) : list frame :=
  match a with
  | [] => []
  | AEnqueue f :: a' => f :: enqueued a'
  | _ :: a' => enqueued a'
  end.

(** Frames sent by the flush loop of [handleOpen], in send order. *)
Fixpoint flushed (a : list act) : list frame :=
  match a with
  | [] => []
  | ATransmit f true :: a' => f :: flushed a'
  | _ :: a' => flushed a'
  end.

Definition is_stop (e : input) : bool :=
  match e with IStop => true | _ => false end.

Definition no_stop (es : list input) : bool := forallb (fun e => negb (is_stop e)) es.

Definition all_ok : oracle := fun _ => true.
Definition first_fails : oracle := fun i => negb (Nat.eqb i 0).

(** Three disconnect/reconnect cycles with frames sent while closed or
    connecting; in the second cycle the first queued send throws. *)
Definition three_cycles : list input :=
  [IStart true; ISafeSend (FMsg "a") all_ok; SockOpened all_ok;
   SockClosed; ISafeSend (FMsg "b") all_ok; ISafeSend (FMsg "c") all_ok;
   TimerFired; SockOpened first_fails;
   SockClosed; TimerFired; ISafeSend (FMsg "d") all_ok; SockOpened all_ok].

(** [n] unexpected closes, each followed by the firing of the reconnect
    timer it scheduled. *)
Definition close_cycles (n : nat) : list input := concat (repeat [SockClosed; TimerFired] n).

(** [start()], then closes until the 11th, which is past the maximum. *)
Definition exhaust : list input := IStart true :: close_cycles 10 ++ [SockClosed].

(** As [exhaust], but before the timer of the 10th close fires a send opens
    a socket, which then closes (the 11th close). *)
Definition exhaust_with_pending : list input :=
  IStart true :: close_cycles 9 ++ [SockClosed; ISafeSend (FMsg "m") all_ok; SockClosed].

(** The default [WS_URL], ['ws://localhost:5000'], is accepted by the
    [WebSocket] constructor. *)
#[export] Instance ws_url_default : WsUrl | 100 := true.

End TransportSpec.

(* ------------------------------------------------------------------ *)
(** ** Listener registry of [SignalingService]: [on], [off] and the
       dispatch of [handleMessage] (src/lib/signaling.ts) *)

Module Listeners.

(** A registered callback, named by a number ([indexOf] compares
    callbacks by identity). *)
Definition cb := nat.

(** [this.callbacks : Map<string, SignalingCallback[]>]. *)
Definition registry := gmap string (list cb).

Definition on (type : string) (f : cb) (m : registry) : registry :=
  let m1 := match m !! type with Some _ => m | None => <[type := []]> m end in
  match m1 !! type with
  | Some arr => <[type := arr ++ [f]]> m1
  | None => m1
  end.

(** [Array.prototype.indexOf]. *)
Fixpoint indexOf (f : cb) (l : list cb) : option nat :=
  match l with
  | [] => None
  | g :: l' => if Nat.eqb f g then Some 0 else option_map S (indexOf f l')
  end.

(** [arr.splice(idx, 1)]. *)
Definition splice1 (i : nat) (l : list cb) : list cb := take i l ++ drop (S i) l.

(** [off(type, cb)]: the array is spliced in place, so the map keeps it. *)
Definition off (type : string) (f : cb) (m : registry) : registry :=
  match m !! type with
  | None => m
  | Some arr =>
      match indexOf f arr with
      | Some idx => <[type := splice1 idx arr]> m
      | None => m
      end
  end.

(** [this.callbacks.get(t) || []]. *)
Definition get_or_empty (m : registry) (t : string) : list cb :=
  match m !! t with Some l => l | None => [] end.

(** [safeCall(cb, message)]: the callback runs; [throws f] says whether it
    throws, which is caught and logged (the [bool]). *)
Definition safeCall (throws : cb -> bool) (f : cb) : cb * bool := (f, throws f).

(** [handleMessage(ev)]. [parsed] is [None] when [JSON.parse] throws, and
    otherwise the [type] field of the message ([None] when absent, so
    [message.type ?? ''] is [""]). The callbacks do not call [on] or [off]
    while a message is dispatched. The result lists the callback calls in
    order, each with whether it threw. *)
Definition handleMessage (throws : cb -> bool) (parsed : option (option string))
           (m : registry) : list (cb * bool) :=
  match parsed with
  | None => []
  | Some ty =>
      let t := match ty with Some t => t | None => "" end in
      map (safeCall throws) (get_or_empty m t) ++ map (safeCall throws) (get_or_empty m "*")
  end.

End Listeners.

(** Observers of the transport state. *)
Module TransportMore.
Import Transport.

(** [isConnected()]. *)
Definition isConnected (s : svc) : bool :=
  match ws s with Some Open => true | _ => false end.

(** [getConnectionState()]. *)
Definition getConnectionState (s : svc) : string :=
  match ws s with
  | None => "closed"
  | Some Connecting => "connecting"
  | Some Open => "open"
  | Some Closing => "closing"
  | Some Closed => "closed"
  end.

(** The connection-control fields, which sending does not touch. *)
Definition ctrl (s : svc) :=
  (ws s, reconnectAttempts s, reconnectTimer s, timerPending s,
   intentionallyClosed s, autoReconnect s, isStarted s, heartbeatOn s).

(** [this.ws] holds a socket that is open or connecting, the case in which
    [connect()] returns at once. *)
Definition holds_socket (s : svc) : bool :=
  match ws s with Some Open | Some Connecting => true | _ => false end.

Definition is_start (e : input) : bool :=
  match e with IStart _ => true | _ => false end.

Definition is_open_event (e : input) : bool :=
  match e with SockOpened _ | StaleOpen _ => true | _ => false end.

(** The calls that go through [safeSend]. *)
Definition is_send_call (e : input) : bool :=
  match e with
  | ISafeSend _ _ | ICreateRoom _ _ _ | IJoinRoom _ _ _ | ILeaveRoom _ _ => true
  | _ => false
  end.

(** The reconnect attempts are used up and no reconnect timer is pending. *)
Definition exhausted_idle (s : svc) : Prop :=
  maxReconnectAttempts <= reconnectAttempts s /\ timerPending s = false.

Definition is_schedule (a : act) : bool :=
  match a with ASchedule _ => true | _ => false end.

Definition is_ping (a : act) : bool :=
  match a with ATransmit (FPing _) _ => true | _ => false end.

Definition is_flush (a : act) : bool :=
  match a with ATransmit _ true => true | _ => false end.

Definition rejoin_frame (role : crole) (r u : string) : frame :=
  match role with CHost => FCreateRoom r u | CViewer => FJoinRoom r u end.

End TransportMore.

(** More of [WebRTCManager] (src/lib/webrtc.ts). *)
Module OrchestratorMore.
Import Orchestrator.

(** [dataChannel.send(message)]. *)
Inductive dc_call := DSend (dc : handle) (message : string).

(** [sendMessage(peerId, message)]; [dcOpen dc] is
    [dc.readyState === 'open']. *)
Definition sendMessage (dcOpen : handle -> bool) (peerId message : string) (st : mgr)
  : list dc_call :=
  match peerConnections st !! peerId with
  | Some p =>
      match dataChannel p with
      | Some dc => if dcOpen dc then [DSend dc message] else []
      | None => []
      end
  | None => []
  end.

(** [getDataChannel(peerId)]. *)
Definition getDataChannel (peerId : string) (st : mgr) : option handle :=
  match peerConnections st !! peerId with
  | Some p => dataChannel p
  | None => None
  end.

(** [startScreenShare()] when [getDisplayMedia] yields the tracks [ts]. *)
Definition startScreenShare (ts : list string) (st : mgr) : mgr :=
  mkMgr (peerConnections st) (Some ts) (next_handle st).

(** [stopScreenShare()]; returns the tracks stopped. *)
Definition stopScreenShare (st : mgr) : mgr * list string :=
  match localStream st with
  | Some ts => (mkMgr (peerConnections st) None (next_handle st), ts)
  | None => (st, [])
  end.

(** The body of the [forEach] of [closeAllConnections]. *)
Definition close_calls (p : peer) : list api :=
  match dataChannel p with Some dc => [ACloseChannel dc] | None => [] end
  ++ [AClose (connection p)].

(** [closeAllConnections()]. [Map.forEach] visits the peers in insertion
    order; here they are visited in the order of [map_to_list], and the
    properties proved below do not depend on that order. Returns the calls
    on the connections and the tracks stopped. *)
Definition closeAllConnections (st : mgr) : mgr * list api * list string :=
  let calls := flat_map (fun kv => close_calls (snd kv)) (map_to_list (peerConnections st)) in
  let '(st2, stopped) := stopScreenShare (mkMgr ∅ (localStream st) (next_handle st)) in
  (st2, calls, stopped).

(** Operations of the manager, as the pages call them. *)
Inductive mop :=
| MShare (tracks : list string)
| MStopShare
| MHost (peerId : string)
| MViewer (peerId : string)
| MClose (peerId : string)
| MCloseAll.

Definition mstep (o : mop) (st : mgr) : mgr * list api :=
  match o with
  | MShare ts => (startScreenShare ts st, [])
  | MStopShare => (fst (stopScreenShare st), [])
  | MHost p => createHostConnection p st
  | MViewer p => createViewerConnection p st
  | MClose p => closePeerConnection p st
  | MCloseAll => let '(st2, calls, _) := closeAllConnections st in (st2, calls)
  end.

Fixpoint mrun (os : list mop) (st : mgr) : mgr * list api :=
  match os with
  | [] => (st, [])
  | o :: rest =>
      let '(st1, c1) := mstep o st in
      let '(st2, c2) := mrun rest st1 in
      (st2, c1 ++ c2)
  end.

(** Every record is filed under its own [id], and distinct peers hold
    distinct connection objects, all older than the next fresh name. *)
Definition well_named (st : mgr) : Prop :=
  (forall p rp, peerConnections st !! p = Some rp ->
     pid rp = p /\ connection rp < next_handle st /\
     (forall dc, dataChannel rp = Some dc -> dc < next_handle st)) /\
  (forall p q rp rq, p <> q -> peerConnections st !! p = Some rp ->
     peerConnections st !! q = Some rq -> connection rp <> connection rq).

Definition channel_before_close (calls : list api) (rp : peer) : Prop :=
  exists pre post,
    calls = pre ++ match dataChannel rp with Some dc => [ACloseChannel dc] | None => [] end
                ++ AClose (connection rp) :: post.

(** The connection object [h] is held by no record and is older than the
    next fresh name. *)
Definition orphaned (h : handle) (st : mgr) : Prop :=
  h < next_handle st /\ forall q rq, peerConnections st !! q = Some rq -> connection rq <> h.

Definition is_close (a : api) : bool :=
  match a with AClose _ | ACloseChannel _ => true | _ => false end.

Definition is_track (a : api) : bool :=
  match a with AAddTrack _ _ => true | _ => false end.

End OrchestratorMore.

(** Notions for the further properties of the relay server. *)
Module ServerMore.
Import Server.

(** The number of frames addressed to [w]. *)
Definition count_to (w : ws_t) (o : sends) : nat :=
  length (List.filter (fun p => Nat.eqb (fst p) w) o).

Definition has_room (st : server) (r : string) : bool :=
  match rooms st !! r with Some _ => true | None => false end.

(** [connections.get(ws)?.roomId === r]. *)
Definition is_member (st : server) (ws : ws_t) (r : string) : bool :=
  match connections st !! ws with Some c => String.eqb (c_roomId c) r | None => false end.

Definition handled_type (t : string) : bool :=
  existsb (String.eqb t)
    ["create-room"; "join-room"; "offer"; "answer"; "ice-candidate"; "leave-room";
     "chat-message"].

(** A message the handlers turn down: an unknown type, creating a room that
    exists, joining one that does not, and a room operation for a room the
    sender is not recorded in. *)
Definition rejected (st : server) (ws : ws_t) (m : msg) : bool :=
  let t := mtype m in
  negb (handled_type t)
  || (String.eqb t "create-room" && has_room st (roomId m))
  || (String.eqb t "join-room" && negb (has_room st (roomId m)))
  || (negb (String.eqb t "create-room") && negb (String.eqb t "join-room")
      && negb (is_member st ws (roomId m))).

(** Every socket named in a room has its metadata recorded. *)
Definition registered (st : server) : Prop :=
  forall r rm, rooms st !! r = Some rm ->
    is_Some (connections st !! host rm) /\
    (forall v, In v (viewers rm) -> is_Some (connections st !! v)).

(** Host 1 created ["r1"]; viewers 2 (["v1"]) and 3 (["v2"]) joined it. *)
Definition st_three : server :=
  fst (run (ServerSamples.setup ++ [ServerSamples.ev 3 (ServerSamples.mk "join-room" "r1" "v2")])
           empty_server).

End ServerMore.

(* ------------------------------------------------------------------ *)
(** ** Properties of the relay server *)

Module ServerFacts.
Import Server ServerSpec ServerSamples.

Lemma eqb_refl_s (s : string) : String.eqb s s = true.
Proof. apply String.eqb_eq; reflexivity. Qed.

Lemma eqb_neq_s (s t : string) : s <> t -> String.eqb s t = false.
Proof. intros H; destruct (String.eqb s t) eqn:E; [apply String.eqb_eq in E; congruence | reflexivity]. Qed.

Lemma run_cons_fst rd e rest st :
  fst (run ((rd, e) :: rest) st) = fst (run rest (fst (step rd e st))).
Proof.
  simpl. destruct (step rd e st) as [st1 o1]. simpl.
  destruct (run rest st1) as [st2 o2]. reflexivity.
Qed.

Lemma run_cons_snd rd e rest st :
  snd (run ((rd, e) :: rest) st) = snd (step rd e st) ++ snd (run rest (fst (step rd e st))).
Proof.
  simpl. destruct (step rd e st) as [st1 o1]. simpl.
  destruct (run rest st1) as [st2 o2]. reflexivity.
Qed.

(** The relay handlers only read the registry. *)
Lemma handleSignaling_state rd ws m st : fst (handleSignaling rd ws m st) = st.
Proof.
  unfold handleSignaling.
  destruct (connections st !! ws) as [c|]; [|reflexivity].
  destruct (String.eqb (c_roomId c) (roomId m)); [|reflexivity].
  destruct (rooms st !! roomId m); reflexivity.
Qed.

Lemma handleChatMessage_state rd ws m now st : fst (handleChatMessage rd ws m now st) = st.
Proof.
  unfold handleChatMessage.
  destruct (connections st !! ws) as [c|]; [|reflexivity].
  destruct (String.eqb (c_roomId c) (roomId m)); [|reflexivity].
  destruct (rooms st !! roomId m); reflexivity.
Qed.

(** C10: processing an [offer], [answer], [ice-candidate] or
    [chat-message] leaves the room registry and every connection's
    metadata exactly as they were, whatever the handler sends. *)
Theorem relay_messages_read_only (ready : ws_t -> bool) (ws : ws_t) (m : msg)
    (now : Z) (st : server) :
  is_relay_type (mtype m) \/ mtype m = "chat-message" ->
  fst (step ready (EMessage ws (Some m) now) st) = st.
Proof.
  intros H. simpl. unfold dispatch.
  destruct H as [[H|[H|H]]|H]; rewrite H; simpl;
    first [apply handleSignaling_state | apply handleChatMessage_state].
Qed.

Lemma relay_messages_read_only_witness :
  is_relay_type (mtype (mkT "offer" "r1" "h" "v1")) /\
  fst (step all_open (EMessage 1 (Some (mkT "offer" "r1" "h" "v1")) 0%Z) st_setup) = st_setup.
Proof.
  split; [left; reflexivity|].
  apply (relay_messages_read_only all_open 1 (mkT "offer" "r1" "h" "v1") 0%Z st_setup).
  left. left. reflexivity.
Defined.

(** The scan stops at the first viewer carrying the target identifier. *)
Lemma forward_to_target_first rd conns t pre v post p vc :
  (forall x, In x pre -> no_match conns t x) ->
  conns !! v = Some vc -> c_userId vc = t ->
  forward_to_target rd conns t (pre ++ v :: post) p = send_if_open rd v p.
Proof.
  intros Hpre Hv Ht. induction pre as [|x pre IH]; simpl.
  - rewrite Hv, Ht, eqb_refl_s. reflexivity.
  - assert (Hx : no_match conns t x) by (apply Hpre; left; reflexivity).
    unfold no_match in Hx.
    destruct (conns !! x) as [vx|].
    + rewrite eqb_neq_s by exact Hx. apply IH. intros y Hy. apply Hpre. right. exact Hy.
    + apply IH. intros y Hy. apply Hpre. right. exact Hy.
Qed.

Lemma forward_to_target_none rd conns t vs p :
  (forall x, In x vs -> no_match conns t x) ->
  forward_to_target rd conns t vs p = [].
Proof.
  intros H. induction vs as [|x vs IH]; simpl; [reflexivity|].
  assert (Hx : no_match conns t x) by (apply H; left; reflexivity).
  unfold no_match in Hx.
  destruct (conns !! x) as [vx|].
  - rewrite eqb_neq_s by exact Hx. apply IH. intros y Hy. apply H. right. exact Hy.
  - apply IH. intros y Hy. apply H. right. exact Hy.
Qed.

(** C3 (amended): for an [offer], [answer] or [ice-candidate] from a
    connection whose recorded room is the message's [roomId], nothing in
    the registry changes, and: if that room no longer exists the sender
    gets ["Room not found"]; otherwise, for a host sender the message,
    annotated with [fromId] = the sender's recorded peer identifier, goes
    to the first viewer of the set (in insertion order) whose recorded
    identifier is [targetId], provided that viewer's socket is open, and
    nowhere else (no error when none matches or it is closed); for a viewer
    sender it goes to the room's host, provided the host's socket is open. *)
Theorem relay_routing (ready : ws_t -> bool) (ws : ws_t) (m : msg) (now : Z)
    (st : server) (c : meta) :
  is_relay_type (mtype m) ->
  connections st !! ws = Some c -> c_roomId c = roomId m ->
  let res := step ready (EMessage ws (Some m) now) st in
  fst res = st /\
  (rooms st !! roomId m = None -> snd res = [(ws, OError "Room not found")]) /\
  (forall rm, rooms st !! roomId m = Some rm ->
     (c_role c = Host ->
        (forall pre v post vc,
           viewers rm = pre ++ v :: post ->
           (forall x, In x pre -> no_match (connections st) (targetId m) x) ->
           connections st !! v = Some vc -> c_userId vc = targetId m ->
           snd res = if ready v then [(v, OForward m (c_userId c))] else []) /\
        ((forall x, In x (viewers rm) -> no_match (connections st) (targetId m) x) ->
           snd res = [])) /\
     (c_role c = Viewer ->
        snd res = if ready (host rm) then [(host rm, OForward m (c_userId c))] else [])).
Proof.
  intros Ht Hc Hr res.
  assert (Hres : res = handleSignaling ready ws m st).
  { subst res. simpl. unfold dispatch.
    destruct Ht as [H|[H|H]]; rewrite H; reflexivity. }
  rewrite Hres. split; [apply handleSignaling_state|].
  unfold handleSignaling. rewrite Hc, Hr, eqb_refl_s.
  split.
  - intros Hn. rewrite Hn. reflexivity.
  - intros rm Hrm. rewrite Hrm. simpl. split.
    + intros Hh. rewrite Hh. split.
      * intros pre v post vc Hv Hpre Hvc Hid. rewrite Hv.
        apply (forward_to_target_first ready (connections st) (targetId m) pre v post _ vc);
          assumption.
      * intros Hnone. apply forward_to_target_none. exact Hnone.
    + intros Hv. rewrite Hv. reflexivity.
Qed.

Lemma relay_routing_witness :
  is_relay_type (mtype (mkT "offer" "r1" "h" "v1")) /\
  connections st_setup !! 1 = Some (mkMeta "r1" Host "h") /\
  snd (step all_open (EMessage 1 (Some (mkT "offer" "r1" "h" "v1")) 0%Z) st_setup)
    = [(2, OForward (mkT "offer" "r1" "h" "v1") "h")].
Proof.
  split; [left; reflexivity|]. split; [reflexivity|].
  destruct (relay_routing all_open 1 (mkT "offer" "r1" "h" "v1") 0%Z st_setup
              (mkMeta "r1" Host "h") (or_introl eq_refl) eq_refl eq_refl)
    as [_ [_ Hrm]].
  destruct (Hrm (mkRoom 1 [2]) eq_refl) as [Hhost _].
  destruct (Hhost eq_refl) as [Hfirst _].
  exact (Hfirst [] 2 [] (mkMeta "r1" Viewer "v1") eq_refl
           (fun x (Hx : In x []) => match Hx with end) eq_refl eq_refl).
Defined.

(** C3 counterexample: the host's [offer] for viewer ["v1"], whose socket
    is not open, is forwarded to nobody; and once the host has left, a
    viewer whose metadata still names the room gets ["Room not found"]
    instead of a forward to a host. *)
Lemma relay_routing_counterexample :
  snd (step (fun w => negb (Nat.eqb w 2)) (EMessage 1 (Some (mkT "offer" "r1" "h" "v1")) 0%Z)
        st_setup) = [] /\
  snd (run [ev 1 (mk "leave-room" "r1" "h"); ev 2 (mkT "answer" "r1" "v1" "h")] st_setup)
    = [(2, OHostLeft "r1"); (2, OError "Room not found")].
Proof. split; reflexivity. Qed.

(** C4 (code bug): a [chat-message] or [leave-room] from a connection that
    is in no room is dropped without any reply, while an [offer] on the
    sibling path from the same connection is answered with
    ["Not in this room"]. *)
Theorem nonmember_not_reported :
  step all_open (EMessage 7 (Some (mk "chat-message" "r1" "u")) 0%Z) st_setup = (st_setup, []) /\
  step all_open (EMessage 7 (Some (mk "leave-room" "r1" "u")) 0%Z) st_setup = (st_setup, []) /\
  step all_open (EMessage 7 (Some (mkT "offer" "r1" "u" "h")) 0%Z) st_setup
    = (st_setup, [(7, OError "Not in this room")]).
Proof. split; [|split]; reflexivity. Qed.

(** C5 (code bug): metadata is never detached. Host 1 creates ["r1"] and
    leaves it explicitly; host 2 creates ["r1"] again and viewer 3 joins.
    When socket 1 later closes, its stale host record deletes host 2's room
    and viewer 3 is sent [host-left], though host 2 never left. *)
Theorem stale_host_close_deletes_room :
  let evs := [ev 1 (mk "create-room" "r1" "h1"); ev 1 (mk "leave-room" "r1" "h1");
              ev 2 (mk "create-room" "r1" "h2"); ev 3 (mk "join-room" "r1" "v")] in
  let st4 := fst (run evs empty_server) in
  rooms st4 !! "r1" = Some (mkRoom 2 [3]) /\
  connections st4 !! 1 = Some (mkMeta "r1" Host "h1") /\
  rooms (fst (step all_open (EClose 1) st4)) !! "r1" = None /\
  snd (step all_open (EClose 1) st4) = [(3, OHostLeft "r1")].
Proof. repeat split; reflexivity. Qed.

(** C1 (code bug): a room is not kept until its host departs. Socket 1
    creates ["r1"] and leaves it; socket 2 creates ["r1"] again and is its
    host, and a further [create-room] for ["r1"] fails. Socket 1's metadata
    still records it as host of ["r1"], so when socket 1 closes the room of
    host 2 is deleted, though socket 2 neither left nor closed and is still
    recorded as host of ["r1"]; a [create-room] for ["r1"] from socket 4
    then succeeds. *)
Theorem stale_host_close_reopens_room :
  let st3 := fst (run [ev 1 (mk "create-room" "r1" "h1"); ev 1 (mk "leave-room" "r1" "h1");
                       ev 2 (mk "create-room" "r1" "h2")] empty_server) in
  let st4 := fst (step all_open (EClose 1) st3) in
  rooms st3 !! "r1" = Some (mkRoom 2 []) /\
  connections st3 !! 1 = Some (mkMeta "r1" Host "h1") /\
  handleCreateRoom 4 (mk "create-room" "r1" "h4") st3 = (st3, [(4, OError "Room already exists")]) /\
  rooms st4 !! "r1" = None /\
  connections st4 !! 2 = Some (mkMeta "r1" Host "h2") /\
  handleCreateRoom 4 (mk "create-room" "r1" "h4") st4 =
    (mkServer (<["r1" := mkRoom 4 []]> (rooms st4))
              (<[4 := mkMeta "r1" Host "h4"]> (connections st4)),
     [(4, ORoomCreated "r1" "h4")]).
Proof. repeat split; reflexivity. Qed.

(** C8 counterexample: socket 1 creates ["r1"] and then ["r2"]; both rooms
    hold it as host, and socket 2 in turn joins ["r1"] and ["r2"] and sits
    in both viewer sets. *)
Lemma attachment_exclusive_counterexample :
  let st := fst (run [ev 1 (mk "create-room" "r1" "h"); ev 1 (mk "create-room" "r2" "h");
                      ev 2 (mk "join-room" "r1" "v"); ev 2 (mk "join-room" "r2" "v")]
                     empty_server) in
  rooms st !! "r1" = Some (mkRoom 1 [2]) /\ rooms st !! "r2" = Some (mkRoom 1 [2]).
Proof. split; reflexivity. Qed.

(** C8 (amended): a successful [create-room] or [join-room] makes the
    connection's metadata name exactly the new room, with the new role and
    user identifier, and changes no other room: a room that already held
    the connection (as host or viewer) keeps holding it. *)
Theorem attach_overwrites_without_detach (rd : ws_t -> bool) (ws : ws_t) (m : msg)
    (now : Z) (st : server) :
  (mtype m = "create-room" -> rooms st !! roomId m = None ->
     connections (fst (step rd (EMessage ws (Some m) now) st)) !! ws
       = Some (mkMeta (roomId m) Host (userId m)) /\
     forall r, r <> roomId m ->
       rooms (fst (step rd (EMessage ws (Some m) now) st)) !! r = rooms st !! r) /\
  (mtype m = "join-room" -> is_Some (rooms st !! roomId m) ->
     connections (fst (step rd (EMessage ws (Some m) now) st)) !! ws
       = Some (mkMeta (roomId m) Viewer (userId m)) /\
     forall r, r <> roomId m ->
       rooms (fst (step rd (EMessage ws (Some m) now) st)) !! r = rooms st !! r).
Proof.
  split.
  - intros Ht Hn. simpl. unfold dispatch. rewrite Ht. simpl.
    unfold handleCreateRoom. rewrite Hn. simpl. split.
    + apply lookup_insert_eq.
    + intros r Hr. apply lookup_insert_ne. congruence.
  - intros Ht [rm Hs]. simpl. unfold dispatch. rewrite Ht. simpl.
    unfold handleJoinRoom. rewrite Hs. simpl. split.
    + apply lookup_insert_eq.
    + intros r Hr. apply lookup_insert_ne. congruence.
Qed.

Lemma attach_overwrites_without_detach_witness :
  mtype (mk "create-room" "r2" "h") = "create-room" /\
  rooms st_setup !! "r2" = None /\
  rooms (fst (step all_open (EMessage 1 (Some (mk "create-room" "r2" "h")) 0%Z) st_setup)) !! "r1"
    = Some (mkRoom 1 [2]).
Proof.
  split; [reflexivity|]. split; [reflexivity|].
  destruct (attach_overwrites_without_detach all_open 1 (mk "create-room" "r2" "h") 0%Z st_setup)
    as [Hc _].
  destruct (Hc eq_refl eq_refl) as [_ Hother].
  rewrite (Hother "r1" ltac:(discriminate)). reflexivity.
Defined.

Lemma set_add_nodup x vs : List.NoDup vs -> List.NoDup (set_add x vs).
Proof.
  intros H. unfold set_add. destruct (existsb (Nat.eqb x) vs) eqn:E; [exact H|].
  apply (Permutation_NoDup (l := x :: vs)).
  - apply Permutation_cons_append.
  - constructor; [|exact H]. intros Hin.
    assert (Hx : existsb (Nat.eqb x) vs = true).
    { apply existsb_exists. exists x. split; [exact Hin | apply Nat.eqb_refl]. }
    congruence.
Qed.

Lemma set_add_present x vs : In x vs -> set_add x vs = vs.
Proof.
  intros H. unfold set_add.
  replace (existsb (Nat.eqb x) vs) with true; [reflexivity|].
  symmetry. apply existsb_exists. exists x. split; [exact H | apply Nat.eqb_refl].
Qed.

Lemma nodup_insert st r rm c :
  viewers_nodup st -> List.NoDup (viewers rm) ->
  viewers_nodup (mkServer (<[r := rm]> (rooms st)) c).
Proof.
  intros H Hn r' rm'. simpl. destruct (decide (r = r')) as [<-|Hne].
  - rewrite lookup_insert_eq. intros [= <-]. exact Hn.
  - rewrite lookup_insert_ne by exact Hne. apply H.
Qed.

Lemma removeFromRoom_nodup rd ws r c st :
  viewers_nodup st -> viewers_nodup (fst (removeFromRoom rd ws r c st)).
Proof.
  intros H. unfold removeFromRoom.
  destruct (rooms st !! r) as [rm|] eqn:E; [|exact H].
  destruct (c_role c); simpl.
  - intros r' rm'. simpl. destruct (decide (r = r')) as [<-|Hne].
    + rewrite lookup_delete_eq. discriminate.
    + rewrite lookup_delete_ne by exact Hne. apply H.
  - apply nodup_insert; [exact H|]. simpl. apply List.NoDup_filter. exact (H r rm E).
Qed.

Lemma step_nodup rd e st : viewers_nodup st -> viewers_nodup (fst (step rd e st)).
Proof.
  intros H. destruct e as [ws | ws [m|] now | ws | ws]; simpl; try exact H.
  - unfold dispatch.
    destruct (String.eqb (mtype m) "create-room").
    { unfold handleCreateRoom. destruct (rooms st !! roomId m); [exact H|].
      apply nodup_insert; [exact H | constructor]. }
    destruct (String.eqb (mtype m) "join-room").
    { unfold handleJoinRoom. destruct (rooms st !! roomId m) as [rm|] eqn:E; [|exact H].
      apply nodup_insert; [exact H|]. apply set_add_nodup. exact (H _ _ E). }
    destruct (String.eqb (mtype m) "offer"); [rewrite handleSignaling_state; exact H|].
    destruct (String.eqb (mtype m) "answer"); [rewrite handleSignaling_state; exact H|].
    destruct (String.eqb (mtype m) "ice-candidate"); [rewrite handleSignaling_state; exact H|].
    destruct (String.eqb (mtype m) "leave-room").
    { unfold handleLeaveRoom. destruct (connections st !! ws) as [c|]; [|exact H].
      destruct (String.eqb (c_roomId c) (roomId m)); [apply removeFromRoom_nodup; exact H | exact H]. }
    destruct (String.eqb (mtype m) "chat-message"); [rewrite handleChatMessage_state; exact H|].
    exact H.
  - unfold handleDisconnect. destruct (connections st !! ws); [apply removeFromRoom_nodup|]; exact H.
  - unfold handleDisconnect. destruct (connections st !! ws); [apply removeFromRoom_nodup|]; exact H.
Qed.

Lemma run_nodup evs st : viewers_nodup st -> viewers_nodup (fst (run evs st)).
Proof.
  revert st. induction evs as [|[rd e] rest IH]; intros st H; [exact H|].
  rewrite run_cons_fst. apply IH. apply step_nodup. exact H.
Qed.

(** C9 counterexample: sockets 2 and 3 both join ["r1"] as ["v1"]; both
    stay in the viewer set, so the identifier ["v1"] is a member twice. *)
Lemma rejoin_same_user_counterexample :
  let st := fst (run [ev 1 (mk "create-room" "r1" "h"); ev 2 (mk "join-room" "r1" "v1");
                      ev 3 (mk "join-room" "r1" "v1")] empty_server) in
  rooms st !! "r1" = Some (mkRoom 1 [2; 3]) /\
  connections st !! 2 = Some (mkMeta "r1" Viewer "v1") /\
  connections st !! 3 = Some (mkMeta "r1" Viewer "v1").
Proof. repeat split; reflexivity. Qed.

(** C9 (amended): viewer membership is a set of connections. Along every
    run from a registry whose viewer sets have no repeated connection (the
    empty registry, for one) no viewer set ever holds a connection twice,
    and a [join-room] from a connection already in the room's viewer set
    leaves that set as it was while its metadata takes the latest
    [userId]. A join from another socket with an identifier already present
    adds a second member (no deduplication by [userId]). *)
Theorem viewer_set_no_duplicate_connection :
  (forall evs (st : server), viewers_nodup st -> viewers_nodup (fst (run evs st))) /\
  viewers_nodup empty_server /\
  (forall (rd : ws_t -> bool) (ws : ws_t) (m : msg) (now : Z) (st : server) (rm : room),
     mtype m = "join-room" -> rooms st !! roomId m = Some rm -> In ws (viewers rm) ->
     rooms (fst (step rd (EMessage ws (Some m) now) st)) !! roomId m = Some rm /\
     connections (fst (step rd (EMessage ws (Some m) now) st)) !! ws
       = Some (mkMeta (roomId m) Viewer (userId m))) /\
  (forall (rd : ws_t -> bool) (ws v : ws_t) (m : msg) (now : Z) (st : server) (rm : room) (c : meta),
     mtype m = "join-room" -> rooms st !! roomId m = Some rm -> ~ In ws (viewers rm) ->
     In v (viewers rm) -> connections st !! v = Some c -> c_userId c = userId m ->
     rooms (fst (step rd (EMessage ws (Some m) now) st)) !! roomId m
       = Some (mkRoom (host rm) (viewers rm ++ [ws])) /\
     connections (fst (step rd (EMessage ws (Some m) now) st)) !! v = Some c /\
     connections (fst (step rd (EMessage ws (Some m) now) st)) !! ws
       = Some (mkMeta (roomId m) Viewer (userId m))).
Proof.
  split; [exact run_nodup|]. split; [|split].
  - intros r rm H. simpl in H. rewrite lookup_empty in H. discriminate.
  - intros rd ws m now st rm Ht Hr Hin. simpl. unfold dispatch. rewrite Ht. simpl.
    unfold handleJoinRoom. rewrite Hr. simpl. rewrite set_add_present by exact Hin.
    split; rewrite lookup_insert_eq; [destruct rm; reflexivity | reflexivity].
  - intros rd ws v m now st rm c Ht Hr Hnin Hv Hc _. simpl. unfold dispatch. rewrite Ht. simpl.
    unfold handleJoinRoom. rewrite Hr. simpl.
    assert (Ha : set_add ws (viewers rm) = viewers rm ++ [ws]).
    { unfold set_add. destruct (existsb (Nat.eqb ws) (viewers rm)) eqn:E; [|reflexivity].
      apply existsb_exists in E. destruct E as [x [Hx Hxe]]. apply Nat.eqb_eq in Hxe.
      subst x. contradiction. }
    rewrite Ha. split; [apply lookup_insert_eq|]. split; [|apply lookup_insert_eq].
    rewrite lookup_insert_ne; [exact Hc|]. intros ->. contradiction.
Qed.

Lemma viewer_set_no_duplicate_connection_witness :
  (mtype (mk "join-room" "r1" "v1b") = "join-room" /\
   rooms st_setup !! "r1" = Some (mkRoom 1 [2]) /\
   In 2 (viewers (mkRoom 1 [2])) /\
   rooms (fst (step all_open (EMessage 2 (Some (mk "join-room" "r1" "v1b")) 0%Z) st_setup)) !! "r1"
     = Some (mkRoom 1 [2])) /\
  (~ In 3 (viewers (mkRoom 1 [2])) /\
   connections st_setup !! 2 = Some (mkMeta "r1" Viewer "v1") /\
   rooms (fst (step all_open (EMessage 3 (Some (mk "join-room" "r1" "v1")) 0%Z) st_setup)) !! "r1"
     = Some (mkRoom 1 [2; 3]) /\
   connections (fst (step all_open (EMessage 3 (Some (mk "join-room" "r1" "v1")) 0%Z) st_setup)) !! 2
     = Some (mkMeta "r1" Viewer "v1") /\
   connections (fst (step all_open (EMessage 3 (Some (mk "join-room" "r1" "v1")) 0%Z) st_setup)) !! 3
     = Some (mkMeta "r1" Viewer "v1")).
Proof.
  split.
  - split; [reflexivity|]. split; [reflexivity|]. split; [simpl; left; reflexivity|].
    destruct (proj1 (proj2 (proj2 viewer_set_no_duplicate_connection)) all_open 2
                (mk "join-room" "r1" "v1b") 0%Z st_setup (mkRoom 1 [2]) eq_refl eq_refl
                (or_introl eq_refl)) as [H _].
    exact H.
  - assert (Hn : ~ In 3 (viewers (mkRoom 1 [2]))).
    { simpl. intros [H|[]]. discriminate. }
    split; [exact Hn|]. split; [reflexivity|].
    exact (proj2 (proj2 (proj2 viewer_set_no_duplicate_connection)) all_open 3 2
             (mk "join-room" "r1" "v1") 0%Z st_setup (mkRoom 1 [2]) (mkMeta "r1" Viewer "v1")
             eq_refl eq_refl Hn (or_introl eq_refl) eq_refl eq_refl).
Defined.

End ServerFacts.

(* ------------------------------------------------------------------ *)
(** ** Properties of the client transport *)

Module TransportFacts.
Import Transport TransportSpec TransportMore.

Section Facts.
Context {wsu : WsUrl}.

Lemma flushed_app a b : flushed (a ++ b) = flushed a ++ flushed b.
Proof. induction a as [|[f [|]| | | |] a IH]; simpl; rewrite ?IH; reflexivity. Qed.

Lemma enqueued_app a b : enqueued (a ++ b) = enqueued a ++ enqueued b.
Proof. induction a as [|[f [|]| | | |] a IH]; simpl; rewrite ?IH; reflexivity. Qed.

Lemma flushed_map sent : flushed (map (fun f => ATransmit f true) sent) = sent.
Proof. induction sent as [|f sent IH]; simpl; rewrite ?IH; reflexivity. Qed.

Lemma enqueued_map sent : enqueued (map (fun f => ATransmit f true) sent) = [].
Proof. induction sent as [|f sent IH]; simpl; rewrite ?IH; reflexivity. Qed.

(** The flush loop splits the queue into a sent prefix and a kept suffix. *)
Lemma flush_split ok i q :
  forall q' sent j, flush ok i q = (q', sent, j) -> sent ++ q' = q.
Proof.
  revert i. induction q as [|p q IH]; intros i q' sent j H; simpl in H.
  - injection H as <- <- _. reflexivity.
  - destruct (ok i).
    + destruct (flush ok (S i) q) as [[r s] k] eqn:E. injection H as <- <- _.
      simpl. f_equal. exact (IH _ _ _ _ E).
    + injection H as <- <- _. reflexivity.
Qed.

Lemma flush_all_ok ok i q :
  (forall j, j < length q -> ok (i + j) = true) ->
  flush ok i q = ([], q, i + length q).
Proof.
  revert i. induction q as [|p q IH]; intros i H; simpl.
  - rewrite Nat.add_0_r. reflexivity.
  - pose proof (H 0 ltac:(simpl; lia)) as H0.
    rewrite Nat.add_0_r in H0. rewrite H0.
    rewrite IH.
    + cbn. f_equal. lia.
    + intros j Hj. replace (S i + j) with (i + S j) by lia. apply H. simpl. lia.
Qed.

Lemma flush_fail_at ok i q k :
  k < length q ->
  (forall j, j < k -> ok (i + j) = true) -> ok (i + k) = false ->
  flush ok i q = (skipn k q, firstn k q, S (i + k)).
Proof.
  revert i k. induction q as [|p q IH]; intros i k Hk Hok Hf; simpl in Hk; [lia|].
  destruct k as [|k].
  - simpl. rewrite Nat.add_0_r in Hf. rewrite Hf. f_equal. f_equal. lia.
  - simpl. pose proof (Hok 0 ltac:(lia)) as H0. rewrite Nat.add_0_r in H0. rewrite H0.
    rewrite (IH (S i) k).
    + cbn. f_equal. lia.
    + lia.
    + intros j Hj. replace (S i + j) with (i + S j) by lia. apply Hok. lia.
    + replace (S i + k) with (i + S k) by lia. exact Hf.
Qed.

(** [flushed a ++ queue after = queue before ++ enqueued a]. *)
Definition fifo (s : svc) (r : svc * list act) : Prop :=
  flushed (snd r) ++ sendQueue (fst r) = sendQueue s ++ enqueued (snd r).

Lemma scheduleReconnect_fifo s :
  sendQueue (fst (scheduleReconnect s)) = sendQueue s /\
  flushed (snd (scheduleReconnect s)) = [] /\ enqueued (snd (scheduleReconnect s)) = [].
Proof.
  unfold scheduleReconnect.
  destruct (negb (autoReconnect s) || negb (isStarted s)); [auto|].
  destruct (Nat.ltb maxReconnectAttempts (S (reconnectAttempts s))); simpl;
    [repeat split|].
  unfold clearReconnectTimer. simpl. destruct (reconnectTimer s); simpl; repeat split.
Qed.

Lemma scheduleReconnect_ws s : ws (fst (scheduleReconnect s)) = ws s.
Proof.
  unfold scheduleReconnect.
  destruct (negb (autoReconnect s) || negb (isStarted s)); [reflexivity|].
  destruct (Nat.ltb maxReconnectAttempts (S (reconnectAttempts s))); [reflexivity|].
  unfold clearReconnectTimer. cbn [reconnectTimer set_attempts].
  destruct (reconnectTimer s); reflexivity.
Qed.

(** [connect()] when [this.ws] is neither open nor connecting. *)
Lemma connect_idle s :
  ws s <> Some Open -> ws s <> Some Connecting ->
  connect s = if url_ok then (set_ws s (Some Connecting), [ANewSocket]) else scheduleReconnect s.
Proof. intros H1 H2. unfold connect. destruct (ws s) as [[| | |]|]; congruence. Qed.

Lemma connect_fifo s : fifo s (connect s) /\ sendQueue (fst (connect s)) = sendQueue s
                       /\ flushed (snd (connect s)) = [] /\ enqueued (snd (connect s)) = [].
Proof.
  destruct (scheduleReconnect_fifo s) as [H1 [H2 H3]].
  unfold fifo, connect. destruct (ws s) as [[| | |]|]; try destruct url_ok;
    simpl; rewrite ?H1, ?H2, ?H3, ?app_nil_r; auto.
Qed.

Lemma safeSend_fifo ok i f s :
  flushed (snd (safeSend ok i f s)) = [] /\
  sendQueue (fst (safeSend ok i f s)) = sendQueue s ++ enqueued (snd (safeSend ok i f s)).
Proof.
  unfold safeSend. destruct (ws s) as [[| | |]|] eqn:Ew.
  - simpl. split; [reflexivity|]. reflexivity.
  - destruct (ok i); simpl; split; try reflexivity. rewrite app_nil_r. reflexivity.
  - destruct (connect_fifo (set_queue s (sendQueue s ++ [f]))) as [_ [Hq [Hf He]]].
    destruct (connect (set_queue s (sendQueue s ++ [f]))) as [s1 a1]. simpl in *.
    split; [exact Hf|]. rewrite Hq, He. reflexivity.
  - destruct (connect_fifo (set_queue s (sendQueue s ++ [f]))) as [_ [Hq [Hf He]]].
    destruct (connect (set_queue s (sendQueue s ++ [f]))) as [s1 a1]. simpl in *.
    split; [exact Hf|]. rewrite Hq, He. reflexivity.
  - destruct (connect_fifo (set_queue s (sendQueue s ++ [f]))) as [_ [Hq [Hf He]]].
    destruct (connect (set_queue s (sendQueue s ++ [f]))) as [s1 a1]. simpl in *.
    split; [exact Hf|]. rewrite Hq, He. reflexivity.
Qed.

Lemma safeSend_fifo' ok i f s : fifo s (safeSend ok i f s).
Proof.
  unfold fifo. destruct (safeSend_fifo ok i f s) as [H1 H2]. rewrite H1, H2. reflexivity.
Qed.

Lemma handleClose_fifo s : fifo s (handleClose s).
Proof.
  unfold fifo, handleClose.
  destruct (negb (intentionallyClosed _) && _ && _).
  - destruct (scheduleReconnect_fifo (set_heartbeat (set_ws s None) false)) as [H1 [H2 H3]].
    rewrite H1, H2, H3. simpl. rewrite app_nil_r. reflexivity.
  - simpl. rewrite app_nil_r. reflexivity.
Qed.

Lemma rejoin_fifo ok j (s2 : svc) (a1 : list act) q0 :
  flushed a1 ++ sendQueue s2 = q0 ++ enqueued a1 ->
  let r := match s2.(currentRoomId), s2.(currentUserId), s2.(currentRole) with
           | Some r, Some u, Some role =>
               if truthy (Some r) && truthy (Some u) then
                 let '(s3, a3) :=
                   match role with
                   | CHost => createRoom ok j r u s2
                   | CViewer => joinRoom ok j r u s2
                   end in (s3, a1 ++ a3)
               else (s2, a1)
           | _, _, _ => (s2, a1)
           end in
  flushed (snd r) ++ sendQueue (fst r) = q0 ++ enqueued (snd r).
Proof.
  intros H r. subst r.
  destruct (currentRoomId s2) as [rr|]; [|exact H].
  destruct (currentUserId s2) as [u|]; [|exact H].
  destruct (currentRole s2) as [role|]; [|exact H].
  destruct (truthy (Some rr) && truthy (Some u)); [|exact H].
  destruct role.
  - unfold createRoom.
    destruct (safeSend_fifo ok j (FCreateRoom rr u) (set_current s2 (Some rr) (Some u) (Some CHost)))
      as [Hf Hq].
    destruct (safeSend ok j (FCreateRoom rr u) _) as [s3 a3]. simpl in *.
    rewrite flushed_app, enqueued_app, Hf, Hq, app_nil_r, app_assoc, H, <- app_assoc.
    reflexivity.
  - unfold joinRoom.
    destruct (safeSend_fifo ok j (FJoinRoom rr u) (set_current s2 (Some rr) (Some u) (Some CViewer)))
      as [Hf Hq].
    destruct (safeSend ok j (FJoinRoom rr u) _) as [s3 a3]. simpl in *.
    rewrite flushed_app, enqueued_app, Hf, Hq, app_nil_r, app_assoc, H, <- app_assoc.
    reflexivity.
Qed.

Lemma handleOpen_fifo ok s : fifo s (handleOpen ok s).
Proof.
  unfold fifo, handleOpen.
  set (s0 := set_attempts s 0).
  assert (Hq0 : sendQueue s0 = sendQueue s) by reflexivity.
  destruct (ws s0) as [[| | |]|] eqn:Ew;
    try (apply rejoin_fifo; simpl; rewrite app_nil_r; reflexivity).
  destruct (flush ok 0 (sendQueue s0)) as [[q sent] j] eqn:Ef.
  apply rejoin_fifo. simpl.
  rewrite flushed_map, enqueued_map, app_nil_r.
  rewrite <- Hq0. exact (flush_split ok 0 _ q sent j Ef).
Qed.

Lemma leaveRoom_fifo ok r s : fifo s (leaveRoom ok r s).
Proof.
  unfold fifo, leaveRoom.
  destruct (match r with Some r0 => Some r0 | None => currentRoomId s end) as [rid|];
    [|simpl; rewrite app_nil_r; reflexivity].
  destruct (truthy (Some rid)); [|simpl; rewrite app_nil_r; reflexivity].
  pose proof (safeSend_fifo' ok 0 (FLeaveRoom rid) s) as H. unfold fifo in H.
  destruct (safeSend ok 0 (FLeaveRoom rid) s) as [s1 a1]. exact H.
Qed.

Lemma tstep_fifo e s : is_stop e = false -> fifo s (tstep e s).
Proof.
  intros Hs. unfold fifo. destruct e; simpl in Hs; try discriminate; simpl.
  - unfold start. destruct (isStarted s); [simpl; rewrite app_nil_r; reflexivity|].
    destruct autoConnect; [|simpl; rewrite app_nil_r; reflexivity].
    exact (proj1 (connect_fifo _)).
  - apply safeSend_fifo'.
  - apply safeSend_fifo'.
  - apply safeSend_fifo'.
  - apply leaveRoom_fifo.
  - destruct (ws s) as [[| | |]|]; try (simpl; rewrite app_nil_r; reflexivity).
    exact (handleOpen_fifo ok (set_ws s (Some Open))).
  - destruct (ws s) as [[| | |]|]; simpl; rewrite app_nil_r; reflexivity.
  - destruct (ws s) as [w|];
      [exact (handleClose_fifo (set_ws s (Some Closed))) | simpl; rewrite app_nil_r; reflexivity].
  - apply handleOpen_fifo.
  - apply handleClose_fifo.
  - destruct (timerPending s);
      [exact (proj1 (connect_fifo _)) | simpl; rewrite app_nil_r; reflexivity].
  - destruct (heartbeatOn s); [|simpl; rewrite app_nil_r; reflexivity].
    destruct (ws s) as [[| | |]|]; try (simpl; rewrite app_nil_r; reflexivity).
    destruct (ok 0); simpl; rewrite app_nil_r; reflexivity.
Qed.

Lemma trun_fifo es s : no_stop es = true -> fifo s (trun es s).
Proof.
  revert s. induction es as [|e es IH]; intros s H.
  - unfold fifo. simpl. rewrite app_nil_r. reflexivity.
  - simpl in H. apply andb_true_iff in H as [H1 H2]. apply negb_true_iff in H1.
    unfold fifo in *. simpl.
    pose proof (tstep_fifo e s H1) as Hs.
    destruct (tstep e s) as [s1 a1]. simpl in Hs.
    pose proof (IH s1 H2) as Hr.
    destruct (trun es s1) as [s2 a2]. simpl in *.
    rewrite flushed_app, enqueued_app, <- app_assoc, Hr, app_assoc, Hs, <- app_assoc.
    reflexivity.
Qed.

Lemma rejoin_shape ok j (s2 : svc) (a1 : list act) :
  let r := match s2.(currentRoomId), s2.(currentUserId), s2.(currentRole) with
           | Some r, Some u, Some role =>
               if truthy (Some r) && truthy (Some u) then
                 let '(s3, a3) :=
                   match role with
                   | CHost => createRoom ok j r u s2
                   | CViewer => joinRoom ok j r u s2
                   end in (s3, a1 ++ a3)
               else (s2, a1)
           | _, _, _ => (s2, a1)
           end in
  exists a3, snd r = a1 ++ a3 /\ flushed a3 = [] /\
             sendQueue (fst r) = sendQueue s2 ++ enqueued a3.
Proof.
  intros r. subst r.
  destruct (currentRoomId s2) as [rr|];
    [|exists []; rewrite !app_nil_r; auto].
  destruct (currentUserId s2) as [u|];
    [|exists []; rewrite !app_nil_r; auto].
  destruct (currentRole s2) as [role|];
    [|exists []; rewrite !app_nil_r; auto].
  destruct (truthy (Some rr) && truthy (Some u));
    [|exists []; rewrite !app_nil_r; auto].
  destruct role.
  - unfold createRoom.
    destruct (safeSend_fifo ok j (FCreateRoom rr u) (set_current s2 (Some rr) (Some u) (Some CHost)))
      as [Hf Hq].
    destruct (safeSend ok j (FCreateRoom rr u) _) as [s3 a3]. simpl in *. eauto.
  - unfold joinRoom.
    destruct (safeSend_fifo ok j (FJoinRoom rr u) (set_current s2 (Some rr) (Some u) (Some CViewer)))
      as [Hf Hq].
    destruct (safeSend ok j (FJoinRoom rr u) _) as [s3 a3]. simpl in *. eauto.
Qed.

Lemma opened_shape ok s q sent j :
  ws s = Some Connecting ->
  flush ok 0 (sendQueue s) = (q, sent, j) ->
  exists a3, snd (tstep (SockOpened ok) s) = map (fun f => ATransmit f true) sent ++ a3 /\
             flushed a3 = [] /\ sendQueue (fst (tstep (SockOpened ok) s)) = q ++ enqueued a3.
Proof.
  intros Hw Hf. simpl. rewrite Hw. unfold handleOpen. simpl. rewrite Hf.
  pose proof (rejoin_shape ok j
    (set_heartbeat (set_queue (set_attempts (set_ws s (Some Open)) 0) q) true)
    (map (fun f => ATransmit f true) sent)) as H.
  simpl in H. exact H.
Qed.

(** C6: a frame sent while the channel is not [Open] is appended to the
    queue (and, when no socket is connecting, a connection is started if
    [WS_URL] is accepted; otherwise [this.ws] is left as it was);
    when the socket opens, the flush sends the queued frames in FIFO order,
    all of them if no send throws, and if the send of the [k]-th one throws
    it sends exactly the first [k], keeps that frame at the front of the
    queue followed by the rest, and stops. Along any sequence of calls and
    socket events without [stop()] (any number of disconnect/reconnect
    cycles), the frames the flush sends followed by the frames still
    queued are exactly the initial queue followed by every frame enqueued,
    in order: none is lost, duplicated or reordered. *)
Theorem queue_fifo_delivery :
  (forall (ok : oracle) (i : nat) (f : frame) (s : svc),
     ws s <> Some Open ->
     sendQueue (fst (safeSend ok i f s)) = sendQueue s ++ [f] /\
     (ws s <> Some Connecting ->
      ws (fst (safeSend ok i f s)) = if url_ok then Some Connecting else ws s)) /\
  (forall (ok : oracle) (s : svc),
     ws s = Some Connecting ->
     (forall j, j < length (sendQueue s) -> ok j = true) ->
     exists rest, snd (tstep (SockOpened ok) s)
                    = map (fun f => ATransmit f true) (sendQueue s) ++ rest /\
                  flushed rest = []) /\
  (forall (ok : oracle) (s : svc) (k : nat),
     ws s = Some Connecting -> k < length (sendQueue s) ->
     (forall j, j < k -> ok j = true) -> ok k = false ->
     flushed (snd (tstep (SockOpened ok) s)) = firstn k (sendQueue s) /\
     exists extra, sendQueue (fst (tstep (SockOpened ok) s)) = skipn k (sendQueue s) ++ extra) /\
  (forall (es : list input) (s : svc),
     no_stop es = true ->
     flushed (snd (trun es s)) ++ sendQueue (fst (trun es s))
       = sendQueue s ++ enqueued (snd (trun es s))).
Proof.
  split; [|split; [|split]].
  - intros ok i f s Hw. unfold safeSend.
    destruct (ws s) as [[| | |]|] eqn:E; try congruence;
      [split; [reflexivity | congruence] | ..];
      (rewrite connect_idle; cbn [ws set_queue]; rewrite ?E; try discriminate;
       destruct (scheduleReconnect_fifo (set_queue s (sendQueue s ++ [f]))) as [Hq _];
       pose proof (scheduleReconnect_ws (set_queue s (sendQueue s ++ [f]))) as Hw';
       destruct url_ok; [split; reflexivity|];
       destruct (scheduleReconnect (set_queue s (sendQueue s ++ [f]))) as [s1 a1];
       cbn [fst] in *; split; [exact Hq | intros _; rewrite Hw'; exact E]).
  - intros ok s Hw Hok.
    pose proof (flush_all_ok ok 0 (sendQueue s) Hok) as Hf.
    destruct (opened_shape ok s [] (sendQueue s) _ Hw Hf) as [a3 [H1 [H2 _]]].
    exists a3. split; assumption.
  - intros ok s k Hw Hk Hok Hfail.
    pose proof (flush_fail_at ok 0 (sendQueue s) k Hk Hok Hfail) as Hf.
    destruct (opened_shape ok s _ _ _ Hw Hf) as [a3 [H1 [H2 H3]]].
    split.
    + rewrite H1, flushed_app, flushed_map, H2, app_nil_r. reflexivity.
    + exists (enqueued a3). exact H3.
  - intros es s H. exact (trun_fifo es s H).
Qed.

Lemma scheduleReconnect_exh s :
  maxReconnectAttempts <= reconnectAttempts s ->
  snd (scheduleReconnect s) = [] /\ ws (fst (scheduleReconnect s)) = ws s /\
  timerPending (fst (scheduleReconnect s)) = timerPending s /\
  reconnectAttempts s <= reconnectAttempts (fst (scheduleReconnect s)).
Proof.
  intros H. unfold scheduleReconnect. cbv zeta.
  destruct (negb (autoReconnect s) || negb (isStarted s)); [auto|].
  destruct (Nat.ltb maxReconnectAttempts (S (reconnectAttempts s))) eqn:L.
  - cbn [fst snd set_attempts ws timerPending reconnectAttempts]. auto.
  - apply Nat.ltb_ge in L. unfold maxReconnectAttempts in *. lia.
Qed.

Lemma connect_exh s :
  exhausted_idle s ->
  exhausted_idle (fst (connect s)) /\ Forall (fun a => is_schedule a = false) (snd (connect s)).
Proof.
  intros [H1 H2]. unfold connect.
  destruct (scheduleReconnect_exh s H1) as [E1 [_ [E3 E4]]].
  destruct (ws s) as [[| | |]|]; try destruct url_ok;
    try (split; [split; [exact H1 | exact H2] | repeat constructor]);
    (split; [split; [lia | rewrite E3; exact H2] | rewrite E1; constructor]).
Qed.

Lemma safeSend_exh ok i f s :
  exhausted_idle s ->
  exhausted_idle (fst (safeSend ok i f s)) /\
  Forall (fun a => is_schedule a = false) (snd (safeSend ok i f s)).
Proof.
  intros H. unfold safeSend. destruct (ws s) as [[| | |]|];
    [| destruct (ok i) | ..]; try (split; [exact H | repeat constructor]).
  all: destruct (connect_exh (set_queue s (sendQueue s ++ [f])) H) as [H1 H2];
    destruct (connect (set_queue s (sendQueue s ++ [f]))) as [s1 a1];
    cbn [fst snd] in *; split; [exact H1 | constructor; [reflexivity | exact H2]].
Qed.

Lemma handleClose_exh s :
  exhausted_idle s ->
  exhausted_idle (fst (handleClose s)) /\ snd (handleClose s) = [] /\
  ws (fst (handleClose s)) = None.
Proof.
  intros [H1 H2]. unfold handleClose.
  destruct (negb (intentionallyClosed _) && _ && _); [|split; [split|]; auto].
  destruct (scheduleReconnect_exh (set_heartbeat (set_ws s None) false) H1) as [E1 [E2 [E3 E4]]].
  cbn [ws timerPending reconnectAttempts set_heartbeat set_ws] in *.
  split; [split; [lia | rewrite E3; exact H2] | split; [exact E1 | exact E2]].
Qed.

Lemma tstep_exh e s :
  is_open_event e = false -> exhausted_idle s ->
  exhausted_idle (fst (tstep e s)) /\ Forall (fun a => is_schedule a = false) (snd (tstep e s)).
Proof.
  intros He H. destruct e; cbn [tstep is_open_event] in *; try discriminate.
  - unfold start. destruct (isStarted s); [split; [exact H | constructor]|].
    destruct autoConnect; [|split; [exact H | constructor]].
    apply connect_exh. exact H.
  - unfold stop. split; [split; [exact (proj1 H) | reflexivity]|].
    destruct (ws s); repeat constructor.
  - apply safeSend_exh. exact H.
  - apply safeSend_exh. exact H.
  - apply safeSend_exh. exact H.
  - unfold leaveRoom.
    destruct (match r with Some r0 => Some r0 | None => currentRoomId s end) as [rid|];
      [|split; [exact H | constructor]].
    destruct (truthy (Some rid)); [|split; [exact H | constructor]].
    destruct (safeSend_exh ok 0 (FLeaveRoom rid) s H) as [H1 H2].
    destruct (safeSend ok 0 (FLeaveRoom rid) s) as [s1 a1]. exact (conj H1 H2).
  - destruct (ws s) as [[| | |]|]; split; try exact H; constructor.
  - destruct (ws s); [|split; [exact H | constructor]].
    destruct (handleClose_exh (set_ws s (Some Closed)) H) as [H1 [H2 _]].
    rewrite H2. split; [exact H1 | constructor].
  - destruct (handleClose_exh s H) as [H1 [H2 _]]. rewrite H2. split; [exact H1 | constructor].
  - rewrite (proj2 H). split; [exact H | constructor].
  - destruct (heartbeatOn s); [|split; [exact H | constructor]].
    destruct (ws s) as [[| | |]|]; try (split; [exact H | constructor]).
    destruct (ok 0); (split; [exact H | repeat constructor]).
Qed.

Lemma tstep_quiet e s :
  is_open_event e = false -> is_start e = false -> is_send_call e = false -> exhausted_idle s ->
  ~ In ANewSocket (snd (tstep e s)) /\ (ws s = None -> ws (fst (tstep e s)) = None).
Proof.
  intros He Hs Hc H. destruct e; cbn [tstep is_open_event is_start is_send_call] in *;
    try discriminate.
  - unfold stop. split; [|reflexivity]. destruct (ws s); [intros [Ha|[]]; discriminate | intros []].
  - destruct (ws s) as [[| | |]|] eqn:Ew;
      (split; [intros [] | intros Hw; cbn [fst ws set_ws]; congruence]).
  - destruct (ws s) as [w|] eqn:Ew; [|split; [intros [] | intros _; exact Ew]].
    destruct (handleClose_exh (set_ws s (Some Closed)) H) as [_ [H2 H3]].
    rewrite H2. split; [intros [] | discriminate].
  - destruct (handleClose_exh s H) as [_ [H2 H3]]. rewrite H2. split; [intros [] | intros _; exact H3].
  - rewrite (proj2 H). split; [intros [] | intros Hw; exact Hw].
  - destruct (heartbeatOn s); [|split; [intros [] | intros Hw; exact Hw]].
    destruct (ws s) as [[| | |]|] eqn:Ew; [| destruct (ok 0) | ..];
      (split; [cbn [snd In]; intuition discriminate | intros Hw; cbn [fst]; congruence]).
Qed.

Lemma trun_exh es s :
  forallb (fun e => negb (is_open_event e)) es = true -> exhausted_idle s ->
  Forall (fun a => is_schedule a = false) (snd (trun es s)) /\ exhausted_idle (fst (trun es s)) /\
  (forallb (fun e => negb (is_start e || is_send_call e)) es = true ->
     ~ In ANewSocket (snd (trun es s)) /\ (ws s = None -> ws (fst (trun es s)) = None)).
Proof.
  revert s. induction es as [|e es IH]; intros s Hes H.
  - cbn [trun fst snd]. split; [constructor|]. split; [exact H|]. intros _. split; [intros []| auto].
  - cbn [forallb] in Hes. apply andb_true_iff in Hes as [He Hes]. apply negb_true_iff in He.
    cbn [trun]. destruct (tstep_exh e s He H) as [H1 H2].
    pose proof (tstep_quiet e s He) as Hq.
    destruct (tstep e s) as [s1 a1]. cbn [fst snd] in *.
    destruct (IH s1 Hes H1) as [H3 [H4 H5]].
    destruct (trun es s1) as [s2 a2]. cbn [fst snd] in *.
    split; [apply Forall_app; auto|]. split; [exact H4|].
    intros Hq'. cbn [forallb] in Hq'. apply andb_true_iff in Hq' as [Hq1 Hq2].
    apply negb_true_iff, orb_false_iff in Hq1 as [Hst Hsc].
    destruct (Hq Hst Hsc H) as [Hn1 Hw1]. destruct (H5 Hq2) as [Hn2 Hw2].
    split; [rewrite in_app_iff; intros [Ha|Ha]; auto | intros Hw; exact (Hw2 (Hw1 Hw))].
Qed.

(** C7 (amended): while the service is started and not stopped, a close of
    its socket with [n] attempts counted since the last open schedules
    reconnect attempt [n+1] after [1000 * min(30, n+1)] ms when [n+1 <= 10],
    and the delay grows strictly with the attempt number up to that bound.
    A close with [n >= 10] schedules nothing but leaves a timer scheduled
    earlier pending, and a pending timer fires and opens a new socket
    whatever the count. From a state with the attempts used up and no timer
    pending, as long as no socket opens (its own or a stale one), nothing
    is ever scheduled again, even across [stop()] and [start()]; if
    moreover neither [start()] nor a sending call is made, no socket is
    opened and [this.ws] stays [null]. A send with no socket opens one;
    [stop()] followed by [start()] opens one without resetting the count
    (when [WS_URL] is accepted); [start()] on the running service does
    nothing. A close while the service is not started schedules nothing. *)
Theorem reconnect_backoff_bounded :
  (forall s : svc,
     ws s <> None -> intentionallyClosed s = false -> autoReconnect s = true ->
     isStarted s = true -> reconnectAttempts s < maxReconnectAttempts ->
     snd (tstep SockClosed s)
       = [ASchedule (baseReconnectDelay * Z.min 30 (Z.of_nat (S (reconnectAttempts s))))%Z] /\
     reconnectAttempts (fst (tstep SockClosed s)) = S (reconnectAttempts s) /\
     timerPending (fst (tstep SockClosed s)) = true /\ ws (fst (tstep SockClosed s)) = None) /\
  (forall n n' : nat, 1 <= n -> n < n' -> n' <= maxReconnectAttempts ->
     (baseReconnectDelay * Z.min 30 (Z.of_nat n) < baseReconnectDelay * Z.min 30 (Z.of_nat n'))%Z) /\
  (forall s : svc,
     ws s <> None -> reconnectAttempts s >= maxReconnectAttempts ->
     snd (tstep SockClosed s) = [] /\ ws (fst (tstep SockClosed s)) = None /\
     timerPending (fst (tstep SockClosed s)) = timerPending s) /\
  (forall s : svc,
     url_ok = true -> timerPending s = true -> holds_socket s = false ->
     snd (tstep TimerFired s) = [ANewSocket] /\ ws (fst (tstep TimerFired s)) = Some Connecting) /\
  (forall (s : svc) (es : list input),
     exhausted_idle s -> forallb (fun e => negb (is_open_event e)) es = true ->
     Forall (fun a => is_schedule a = false) (snd (trun es s)) /\
     exhausted_idle (fst (trun es s)) /\
     (forallb (fun e => negb (is_start e || is_send_call e)) es = true ->
        ~ In ANewSocket (snd (trun es s)) /\ (ws s = None -> ws (fst (trun es s)) = None))) /\
  (forall (s : svc) (f : frame) (ok : oracle),
     url_ok = true -> ws s = None ->
     snd (tstep (ISafeSend f ok) s) = [AEnqueue f; ANewSocket] /\
     ws (fst (tstep (ISafeSend f ok) s)) = Some Connecting) /\
  (forall s : svc,
     url_ok = true ->
     snd (trun [IStop; IStart true] s)
       = (match ws s with Some _ => [ACloseSocket] | None => [] end) ++ [ANewSocket] /\
     reconnectAttempts (fst (trun [IStop; IStart true] s)) = reconnectAttempts s) /\
  (forall (s : svc) (a : bool), isStarted s = true -> tstep (IStart a) s = (s, [])) /\
  (forall s : svc, ws s <> None -> isStarted s = false -> snd (tstep SockClosed s) = []).
Proof.
  split; [|split; [|split; [|split; [|split; [|split; [|split; [|split]]]]]]].
  - intros s Hw Hi Ha Hs Hn. simpl. destruct (ws s) as [w|]; [|congruence].
    unfold handleClose. simpl. rewrite Hi, Ha, Hs. simpl.
    unfold scheduleReconnect. simpl. rewrite Ha, Hs. simpl.
    replace (Nat.ltb maxReconnectAttempts (S (reconnectAttempts s))) with false
      by (symmetry; apply Nat.ltb_ge; unfold maxReconnectAttempts in *; lia).
    unfold clearReconnectTimer. simpl. destruct (reconnectTimer s); simpl; repeat split.
  - intros n n' H1 H2 H3. unfold baseReconnectDelay, maxReconnectAttempts in *. lia.
  - intros s Hw Hn. simpl. destruct (ws s) as [w|]; [|congruence].
    unfold handleClose. simpl.
    destruct (negb (intentionallyClosed s) && autoReconnect s && isStarted s);
      [|simpl; repeat split].
    unfold scheduleReconnect. simpl.
    destruct (negb (autoReconnect s) || negb (isStarted s)); [simpl; repeat split|].
    replace (Nat.ltb maxReconnectAttempts (S (reconnectAttempts s))) with true
      by (symmetry; apply Nat.ltb_lt; unfold maxReconnectAttempts in *; lia).
    simpl. repeat split.
  - intros s Hu Hp Hh. cbn [tstep]. rewrite Hp.
    unfold holds_socket in Hh.
    rewrite connect_idle; cbn [ws set_timer];
      [| destruct (ws s) as [[| | |]|]; congruence ..].
    rewrite Hu. split; reflexivity.
  - intros s es H Hes. exact (trun_exh es s Hes H).
  - intros s f ok Hu Hw. cbn [tstep]. unfold safeSend. rewrite Hw.
    rewrite connect_idle; cbn [ws set_queue]; rewrite ?Hw; try discriminate.
    rewrite Hu. split; reflexivity.
  - intros s Hu. cbn [trun tstep]. unfold stop, start. cbn [isStarted].
    rewrite connect_idle; cbn [ws]; try discriminate. rewrite Hu.
    destruct (ws s); split; reflexivity.
  - intros s a Hs. simpl. unfold start. rewrite Hs. reflexivity.
  - intros s Hw Hs. simpl. destruct (ws s) as [w|]; [|congruence].
    unfold handleClose. simpl. rewrite Hs, andb_false_r. reflexivity.
Qed.


End Facts.

Lemma queue_fifo_delivery_witness :
  no_stop three_cycles = true /\
  flushed (snd (trun three_cycles init)) ++ sendQueue (fst (trun three_cycles init))
    = [FMsg "a"; FMsg "b"; FMsg "c"; FMsg "d"] /\
  flushed (snd (trun three_cycles init)) = [FMsg "a"; FMsg "b"; FMsg "c"; FMsg "d"].
Proof.
  split; [reflexivity|]. split.
  - rewrite (proj2 (proj2 (proj2 queue_fifo_delivery)) three_cycles init eq_refl).
    reflexivity.
  - reflexivity.
Defined.

(** C7 counterexample: the attempts are exhausted, yet the timer the 10th
    close scheduled is still pending when a socket opened by a send closes
    (the 11th close), and when it fires it opens a new socket. Once the
    attempts are exhausted without a pending timer, [start()] does nothing,
    since the service is still started. A service that was never started
    (the app never calls [start()]) schedules no reconnect when its socket
    closes unexpectedly. *)
Lemma reconnect_counterexample :
  let s1 := fst (trun exhaust_with_pending init) in
  let s2 := fst (trun exhaust init) in
  reconnectAttempts s1 = 11 /\ ws s1 = None /\ timerPending s1 = true /\
  snd (tstep TimerFired s1) = [ANewSocket] /\ ws (fst (tstep TimerFired s1)) = Some Connecting /\
  reconnectAttempts s2 = 11 /\ ws s2 = None /\ isStarted s2 = true /\
  tstep (IStart true) s2 = (s2, []) /\
  snd (trun [ISafeSend (FMsg "x") all_ok; SockClosed] init) = [AEnqueue (FMsg "x"); ANewSocket] /\
  intentionallyClosed (fst (trun [ISafeSend (FMsg "x") all_ok; SockClosed] init)) = false.
Proof. vm_compute. repeat split. Qed.

Lemma reconnect_backoff_bounded_witness :
  let s := fst (trun [IStart true; SockOpened all_ok] init) in
  let x := fst (trun exhaust init) in
  let es := [StaleClose; TimerFired; IStop; IStart true; SockClosed;
             ISafeSend (FMsg "y") all_ok; SockClosed] in
  ws s <> None /\ intentionallyClosed s = false /\ autoReconnect s = true /\
  isStarted s = true /\ reconnectAttempts s < maxReconnectAttempts /\
  snd (tstep SockClosed s) = [ASchedule 1000%Z] /\
  exhausted_idle x /\ forallb (fun e => negb (is_open_event e)) es = true /\
  Forall (fun a => is_schedule a = false) (snd (trun es x)).
Proof.
  intros s x es.
  assert (Hw : ws s <> None) by discriminate.
  assert (Hn : reconnectAttempts s < maxReconnectAttempts) by (vm_compute; lia).
  assert (Hx : exhausted_idle x) by (split; [vm_compute; lia | reflexivity]).
  assert (Hes : forallb (fun e => negb (is_open_event e)) es = true) by reflexivity.
  split; [exact Hw|]. split; [reflexivity|]. split; [reflexivity|]. split; [reflexivity|].
  split; [exact Hn|].
  split; [rewrite (proj1 (proj1 reconnect_backoff_bounded s Hw eq_refl eq_refl eq_refl Hn));
          reflexivity|].
  split; [exact Hx|]. split; [exact Hes|].
  exact (proj1 (proj1 (proj2 (proj2 (proj2 (proj2 reconnect_backoff_bounded)))) x es Hx Hes)).
Defined.


End TransportFacts.

(* ------------------------------------------------------------------ *)
(** ** Properties of the connection orchestrator *)

Module OrchestratorFacts.
Import Orchestrator.




End OrchestratorFacts.

(* ------------------------------------------------------------------ *)
(** ** Further properties of the relay server *)

Module ServerMoreFacts.
Import Server ServerSpec ServerMore ServerSamples ServerFacts.

Lemma existsb_in w vs : existsb (Nat.eqb w) vs = true <-> In w vs.
Proof.
  rewrite existsb_exists. split.
  - intros [x [Hx Heq]]. apply Nat.eqb_eq in Heq. subst. exact Hx.
  - intros H. exists w. split; [exact H | apply Nat.eqb_refl].
Qed.

(** A fan-out over a duplicate-free viewer set addresses each open viewer
    once. *)
Lemma count_fanout (rd : ws_t -> bool) (w : ws_t) (o : out) vs :
  List.NoDup vs ->
  count_to w (map (fun v => (v, o)) (List.filter (fun v => rd v) vs))
  = if rd w && existsb (Nat.eqb w) vs then 1 else 0.
Proof.
  unfold count_to. induction vs as [|v vs IH]; intros Hnd.
  - simpl. destruct (rd w); reflexivity.
  - inversion Hnd as [|? ? Hnin Hnd']; subst. simpl.
    destruct (Nat.eqb w v) eqn:Ewv.
    + apply Nat.eqb_eq in Ewv. subst v.
      assert (Hf : existsb (Nat.eqb w) vs = false).
      { destruct (existsb (Nat.eqb w) vs) eqn:E; [|reflexivity].
        apply existsb_in in E. contradiction. }
      destruct (rd w) eqn:Er; simpl; rewrite ?Nat.eqb_refl; simpl;
        rewrite IH by exact Hnd'; rewrite ?Er, ?Hf; reflexivity.
    + destruct (rd v) eqn:Er; simpl.
      * rewrite Nat.eqb_sym, Ewv. apply IH. exact Hnd'.
      * apply IH. exact Hnd'.
Qed.

Lemma count_to_app w a b : count_to w (a ++ b) = count_to w a + count_to w b.
Proof. unfold count_to. rewrite List.filter_app, length_app. reflexivity. Qed.

Lemma count_send_if_open rd w h o :
  count_to w (send_if_open rd h o) = if rd w && Nat.eqb w h then 1 else 0.
Proof.
  unfold send_if_open, count_to. destruct (Nat.eqb w h) eqn:E.
  - apply Nat.eqb_eq in E. subst. destruct (rd h); simpl; rewrite ?Nat.eqb_refl; reflexivity.
  - rewrite andb_false_r. destruct (rd h); simpl; [rewrite Nat.eqb_sym, E|]; reflexivity.
Qed.

Lemma Forall_fanout (o : out) (vs : list ws_t) :
  Forall (fun p => snd p = o) (map (fun v => (v, o)) vs).
Proof. induction vs; simpl; constructor; auto. Qed.

Lemma set_delete_notin x vs : ~ In x vs -> set_delete x vs = vs.
Proof.
  unfold set_delete. induction vs as [|v vs IH]; intros H; simpl; [reflexivity|].
  destruct (Nat.eqb x v) eqn:E.
  - apply Nat.eqb_eq in E. subst. exfalso. apply H. left. reflexivity.
  - simpl. rewrite IH; [reflexivity|]. intros Hin. apply H. right. exact Hin.
Qed.

Lemma set_delete_spec x vs v :
  In v (set_delete x vs) <-> In v vs /\ v <> x.
Proof.
  unfold set_delete. rewrite List.filter_In. rewrite negb_true_iff, Nat.eqb_neq.
  split; intros [H1 H2]; split; auto.
Qed.

(** X1: a message the handlers turn down (an unknown type, creating a room
    that exists, joining one that does not, or a room operation for a room
    the sender is not recorded in) changes neither the registry nor the
    metadata, and any reply goes to the sender alone; a frame that is not
    JSON gets exactly the error ["Invalid message format"]; and a socket
    with no metadata closes or errors without any effect. *)
Theorem ignored_inputs_no_effect :
  (forall (rd : ws_t -> bool) (ws : ws_t) (m : msg) (now : Z) (st : server),
     rejected st ws m = true ->
     fst (step rd (EMessage ws (Some m) now) st) = st /\
     Forall (fun p => fst p = ws) (snd (step rd (EMessage ws (Some m) now) st))) /\
  (forall (rd : ws_t -> bool) (ws : ws_t) (now : Z) (st : server),
     step rd (EMessage ws None now) st = (st, [(ws, OError "Invalid message format")])) /\
  (forall (rd : ws_t -> bool) (ws : ws_t) (st : server),
     connections st !! ws = None ->
     step rd (EClose ws) st = (st, []) /\ step rd (EError ws) st = (st, [])).
Proof.
  split; [|split].
  - intros rd ws m now st Hrej. simpl.
    unfold rejected, handled_type, has_room, is_member in Hrej. unfold dispatch.
    destruct (String.eqb (mtype m) "create-room") eqn:E1;
    [|destruct (String.eqb (mtype m) "join-room") eqn:E2;
    [|destruct (String.eqb (mtype m) "offer") eqn:E3;
    [|destruct (String.eqb (mtype m) "answer") eqn:E4;
    [|destruct (String.eqb (mtype m) "ice-candidate") eqn:E5;
    [|destruct (String.eqb (mtype m) "leave-room") eqn:E6;
    [|destruct (String.eqb (mtype m) "chat-message") eqn:E7]]]]]];
    try (match goal with H : String.eqb (mtype m) _ = true |- _ =>
           apply String.eqb_eq in H; rewrite H in Hrej end);
    simpl in Hrej; rewrite ?E1, ?E2, ?E3, ?E4, ?E5, ?E6, ?E7 in Hrej; simpl in Hrej;
    unfold handleCreateRoom, handleJoinRoom, handleSignaling, handleLeaveRoom,
      handleChatMessage;
    destruct (rooms st !! roomId m); destruct (connections st !! ws) as [c|];
    try destruct (String.eqb (c_roomId c) (roomId m)); simpl in Hrej;
    rewrite ?orb_false_r in Hrej; try discriminate;
    (split; [reflexivity | repeat constructor]).
  - reflexivity.
  - intros rd ws st H. simpl. unfold handleDisconnect. rewrite H. split; reflexivity.
Qed.

(** X2: a chat message from a connection recorded in an existing room
    changes nothing and broadcasts one identical frame (room, sender id,
    username, text, server timestamp) to the host if its socket is open and
    to every open viewer; each open member gets exactly one copy, the
    sender included (it is echoed back), except that a host socket that
    also joined its own room as a viewer gets two. *)
Theorem chat_broadcast_once (rd : ws_t -> bool) (ws : ws_t) (m : msg) (now : Z)
    (st : server) (c : meta) (rm : room) :
  viewers_nodup st -> mtype m = "chat-message" ->
  connections st !! ws = Some c -> c_roomId c = roomId m -> rooms st !! roomId m = Some rm ->
  fst (step rd (EMessage ws (Some m) now) st) = st /\
  Forall (fun p => snd p = OChat (roomId m) (userId m) (musername m) (mtext m) now)
    (snd (step rd (EMessage ws (Some m) now) st)) /\
  (forall w, count_to w (snd (step rd (EMessage ws (Some m) now) st))
     = (if rd w && Nat.eqb w (host rm) then 1 else 0)
       + (if rd w && existsb (Nat.eqb w) (viewers rm) then 1 else 0)).
Proof.
  intros Hnd Ht Hc Hr Hrm.
  assert (Hd : step rd (EMessage ws (Some m) now) st = handleChatMessage rd ws m now st).
  { simpl. unfold dispatch. rewrite Ht. reflexivity. }
  rewrite Hd. unfold handleChatMessage. rewrite Hc, Hr, eqb_refl_s, Hrm. cbn [fst snd].
  split; [reflexivity|]. split.
  - apply Forall_app. split.
    + unfold send_if_open. destruct (rd (host rm)); repeat constructor.
    + apply Forall_fanout.
  - intros w. rewrite count_to_app, count_send_if_open.
    rewrite (count_fanout rd w _ (viewers rm) (Hnd _ _ Hrm)). reflexivity.
Qed.

(** X3: when a connection recorded as host closes while its room exists,
    the room is deleted, the metadata is left as it was, and every frame
    sent is ["host-left"] for that room: each viewer whose socket is open
    gets exactly one, and no other socket gets any. *)
Theorem host_departure_notifies_viewers (rd : ws_t -> bool) (ws : ws_t) (st : server)
    (c : meta) (rm : room) :
  viewers_nodup st -> connections st !! ws = Some c -> c_role c = Host ->
  rooms st !! c_roomId c = Some rm ->
  rooms (fst (step rd (EClose ws) st)) = delete (c_roomId c) (rooms st) /\
  connections (fst (step rd (EClose ws) st)) = connections st /\
  Forall (fun p => snd p = OHostLeft (c_roomId c)) (snd (step rd (EClose ws) st)) /\
  (forall w, count_to w (snd (step rd (EClose ws) st))
     = if rd w && existsb (Nat.eqb w) (viewers rm) then 1 else 0).
Proof.
  intros Hnd Hc Hh Hr. simpl. unfold handleDisconnect, removeFromRoom.
  rewrite Hc, Hr, Hh. cbn [fst snd rooms connections].
  split; [reflexivity|]. split; [reflexivity|]. split.
  - apply Forall_fanout.
  - intros w. exact (count_fanout rd w _ (viewers rm) (Hnd _ _ Hr)).
Qed.

(** X4: when a connection recorded as viewer closes while its room
    exists, exactly that socket leaves the room's viewer set (every other
    viewer stays), the room is kept with the same host even if no viewer is
    left, no other room and no metadata changes, and the only frame sent is
    ["viewer-left"] with the viewer's id, to the host if its socket is
    open. *)
Theorem viewer_departure_updates_room (rd : ws_t -> bool) (ws : ws_t) (st : server)
    (c : meta) (rm : room) :
  connections st !! ws = Some c -> c_role c = Viewer -> rooms st !! c_roomId c = Some rm ->
  (exists vs, rooms (fst (step rd (EClose ws) st)) !! c_roomId c = Some (mkRoom (host rm) vs) /\
     ~ In ws vs /\ (forall v, v <> ws -> (In v vs <-> In v (viewers rm)))) /\
  (forall r, r <> c_roomId c -> rooms (fst (step rd (EClose ws) st)) !! r = rooms st !! r) /\
  connections (fst (step rd (EClose ws) st)) = connections st /\
  snd (step rd (EClose ws) st) = send_if_open rd (host rm) (OViewerLeft (c_roomId c) (c_userId c)).
Proof.
  intros Hc Hv Hr. simpl. unfold handleDisconnect, removeFromRoom.
  rewrite Hc, Hr, Hv. cbn [fst snd rooms connections].
  split; [|split; [|split; reflexivity]].
  - exists (set_delete ws (viewers rm)). split; [apply lookup_insert_eq|]. split.
    + rewrite set_delete_spec. intros [_ H]. apply H. reflexivity.
    + intros v Hne. rewrite set_delete_spec. split; [intros [H _]; exact H | intros H; split; assumption].
  - intros r Hne. apply lookup_insert_ne. congruence.
Qed.

(** X5: a socket that joins an existing room it is not a viewer of and
    then leaves it with ["leave-room"] for that room leaves the room
    registry exactly as it was; its metadata stays recorded as a viewer of
    that room; the host hears ["viewer-joined"] then ["viewer-left"] (each
    if its socket is open at the time) and the socket gets ["room-joined"]. *)
Theorem join_then_leave_restores_room (rd1 rd2 : ws_t -> bool) (ws : ws_t) (mj ml : msg)
    (t1 t2 : Z) (st : server) (rm : room) :
  mtype mj = "join-room" -> mtype ml = "leave-room" -> roomId ml = roomId mj ->
  rooms st !! roomId mj = Some rm -> ~ In ws (viewers rm) ->
  rooms (fst (run [(rd1, EMessage ws (Some mj) t1); (rd2, EMessage ws (Some ml) t2)] st))
    = rooms st /\
  connections (fst (run [(rd1, EMessage ws (Some mj) t1); (rd2, EMessage ws (Some ml) t2)] st))
    = <[ws := mkMeta (roomId mj) Viewer (userId mj)]> (connections st) /\
  snd (run [(rd1, EMessage ws (Some mj) t1); (rd2, EMessage ws (Some ml) t2)] st)
    = send_if_open rd1 (host rm) (OViewerJoined (roomId mj) (userId mj))
      ++ [(ws, ORoomJoined (roomId mj) (userId mj))]
      ++ send_if_open rd2 (host rm) (OViewerLeft (roomId mj) (userId mj)).
Proof.
  intros Hj Hl Hid Hr Hnin.
  assert (Hadd : set_add ws (viewers rm) = viewers rm ++ [ws]).
  { unfold set_add. destruct (existsb (Nat.eqb ws) (viewers rm)) eqn:E; [|reflexivity].
    apply existsb_in in E. contradiction. }
  assert (Hdel : set_delete ws (viewers rm ++ [ws]) = viewers rm).
  { unfold set_delete. rewrite List.filter_app. simpl. rewrite Nat.eqb_refl. simpl.
    rewrite app_nil_r. exact (set_delete_notin ws (viewers rm) Hnin). }
  rewrite !run_cons_fst, !run_cons_snd.
  set (st1 := fst (step rd1 (EMessage ws (Some mj) t1) st)).
  assert (Hs1 : step rd1 (EMessage ws (Some mj) t1) st = handleJoinRoom rd1 ws mj st).
  { simpl. unfold dispatch. rewrite Hj. reflexivity. }
  assert (Hs2 : step rd2 (EMessage ws (Some ml) t2) st1 = handleLeaveRoom rd2 ws ml st1).
  { simpl. unfold dispatch. rewrite Hl. reflexivity. }
  subst st1. rewrite Hs1 in *. rewrite Hs2.
  unfold handleJoinRoom. rewrite Hr. cbn [fst snd].
  unfold handleLeaveRoom, removeFromRoom. cbn [connections rooms]. rewrite !Hid.
  rewrite !lookup_insert_eq. cbn [c_roomId c_role c_userId host viewers].
  rewrite eqb_refl_s, Hadd, Hdel. cbn [fst snd rooms connections run]. rewrite !app_nil_r.
  split; [|split; [reflexivity | rewrite <- app_assoc; reflexivity]].
  rewrite insert_insert_eq. destruct rm as [h vs]. apply insert_id. exact Hr.
Qed.

Lemma is_Some_insert {A} (m : gmap ws_t A) w x k :
  is_Some (m !! k) -> is_Some (<[w := x]> m !! k).
Proof.
  intros H. destruct (decide (w = k)) as [->|Hne].
  - rewrite lookup_insert_eq. eexists; reflexivity.
  - rewrite lookup_insert_ne by exact Hne. exact H.
Qed.

Lemma set_add_in x s v : In v (set_add x s) -> v = x \/ In v s.
Proof.
  unfold set_add. destruct (existsb (Nat.eqb x) s); [auto|].
  rewrite in_app_iff. simpl. intuition.
Qed.

Lemma registered_empty : registered empty_server.
Proof. intros r rm H. simpl in H. rewrite lookup_empty in H. discriminate. Qed.

Lemma removeFromRoom_registered rd ws r c st :
  registered st ->
  registered (fst (removeFromRoom rd ws r c st)) /\
  connections (fst (removeFromRoom rd ws r c st)) = connections st.
Proof.
  intros H. unfold removeFromRoom.
  destruct (rooms st !! r) as [rm|] eqn:Er; [|split; [exact H | reflexivity]].
  destruct (c_role c); cbn [fst rooms connections]; (split; [|reflexivity]).
  - intros r' rm' H'. cbn [rooms connections] in *.
    apply lookup_delete_Some in H' as [_ H']. exact (H _ _ H').
  - intros r' rm' H'. cbn [rooms connections] in *.
    destruct (decide (r = r')) as [<-|Hne].
    + rewrite lookup_insert_eq in H'. injection H' as <-. cbn [host viewers].
      split; [exact (proj1 (H _ _ Er))|].
      intros v Hv. apply set_delete_spec in Hv as [Hv _]. exact (proj2 (H _ _ Er) v Hv).
    + rewrite lookup_insert_ne in H' by exact Hne. exact (H _ _ H').
Qed.

Lemma step_registered rd e st :
  registered st ->
  registered (fst (step rd e st)) /\
  (forall w, is_Some (connections st !! w) -> is_Some (connections (fst (step rd e st)) !! w)).
Proof.
  intros H.
  assert (Hrm : forall ws r c,
            registered (fst (removeFromRoom rd ws r c st)) /\
            (forall w, is_Some (connections st !! w) ->
                       is_Some (connections (fst (removeFromRoom rd ws r c st)) !! w))).
  { intros ws r c. destruct (removeFromRoom_registered rd ws r c st H) as [H1 H2].
    rewrite H2. split; auto. }
  destruct e as [ws | ws [m|] now | ws | ws]; cbn [step];
    try (split; [exact H | auto]).
  - unfold dispatch.
    destruct (String.eqb (mtype m) "create-room").
    { unfold handleCreateRoom. destruct (rooms st !! roomId m) as [rm|] eqn:E;
        [split; [exact H | auto]|].
      cbn [fst rooms connections]. split; [|intros w; apply is_Some_insert].
      intros r rm' H'. cbn [rooms connections] in *.
      destruct (decide (roomId m = r)) as [<-|Hne].
      - rewrite lookup_insert_eq in H'. injection H' as <-. cbn [host viewers].
        split; [rewrite lookup_insert_eq; eexists; reflexivity | intros v []].
      - rewrite lookup_insert_ne in H' by exact Hne. destruct (H _ _ H') as [H1 H2].
        split; [apply is_Some_insert; exact H1|].
        intros v Hv. apply is_Some_insert. exact (H2 v Hv). }
    destruct (String.eqb (mtype m) "join-room").
    { unfold handleJoinRoom. destruct (rooms st !! roomId m) as [rm|] eqn:E;
        [|split; [exact H | auto]].
      cbn [fst rooms connections]. split; [|intros w; apply is_Some_insert].
      intros r rm' H'. cbn [rooms connections] in *.
      destruct (decide (roomId m = r)) as [<-|Hne].
      - rewrite lookup_insert_eq in H'. injection H' as <-. cbn [host viewers].
        split; [apply is_Some_insert; exact (proj1 (H _ _ E))|].
        intros v Hv. apply set_add_in in Hv as [->|Hv].
        + rewrite lookup_insert_eq. eexists; reflexivity.
        + apply is_Some_insert. exact (proj2 (H _ _ E) v Hv).
      - rewrite lookup_insert_ne in H' by exact Hne. destruct (H _ _ H') as [H1 H2].
        split; [apply is_Some_insert; exact H1|].
        intros v Hv. apply is_Some_insert. exact (H2 v Hv). }
    destruct (String.eqb (mtype m) "offer");
      [rewrite handleSignaling_state; split; [exact H | auto]|].
    destruct (String.eqb (mtype m) "answer");
      [rewrite handleSignaling_state; split; [exact H | auto]|].
    destruct (String.eqb (mtype m) "ice-candidate");
      [rewrite handleSignaling_state; split; [exact H | auto]|].
    destruct (String.eqb (mtype m) "leave-room").
    { unfold handleLeaveRoom. destruct (connections st !! ws) as [c|]; [|split; [exact H | auto]].
      destruct (String.eqb (c_roomId c) (roomId m)); [apply Hrm | split; [exact H | auto]]. }
    destruct (String.eqb (mtype m) "chat-message");
      [rewrite handleChatMessage_state; split; [exact H | auto]|].
    split; [exact H | auto].
  - unfold handleDisconnect. destruct (connections st !! ws) as [c|];
      [apply Hrm | split; [exact H | auto]].
  - unfold handleDisconnect. destruct (connections st !! ws) as [c|];
      [apply Hrm | split; [exact H | auto]].
Qed.

(** X6: along any run, metadata once recorded for a socket is never
    removed (it is only overwritten, by a later create or join), and every
    socket named in the registry, as a room's host or as one of its
    viewers, has metadata recorded. *)
Theorem metadata_kept_and_registry_covered (evs : list ((ws_t -> bool) * event)) (st : server) :
  registered st ->
  registered (fst (run evs st)) /\
  (forall w, is_Some (connections st !! w) -> is_Some (connections (fst (run evs st)) !! w)).
Proof.
  revert st. induction evs as [|[rd e] evs IH]; intros st H.
  - split; [exact H | auto].
  - rewrite run_cons_fst.
    destruct (step_registered rd e st H) as [H1 H2].
    destruct (IH _ H1) as [H3 H4]. split; [exact H3|].
    intros w Hw. apply H4, H2, Hw.
Qed.

Lemma nodup_empty : viewers_nodup empty_server.
Proof. intros r rm H. simpl in H. rewrite lookup_empty in H. discriminate. Qed.

Lemma st_three_nodup : viewers_nodup st_three.
Proof. apply run_nodup. exact nodup_empty. Qed.

Lemma ignored_inputs_no_effect_witness :
  rejected st_setup 2 (mkT "offer" "r2" "v1" "h") = true /\
  fst (step all_open (EMessage 2 (Some (mkT "offer" "r2" "v1" "h")) 0%Z) st_setup) = st_setup /\
  snd (step all_open (EMessage 2 (Some (mkT "offer" "r2" "v1" "h")) 0%Z) st_setup)
    = [(2, OError "Not in this room")].
Proof.
  split; [reflexivity|]. split; [|reflexivity].
  exact (proj1 (proj1 ignored_inputs_no_effect all_open 2 (mkT "offer" "r2" "v1" "h") 0%Z
                  st_setup eq_refl)).
Defined.

Lemma chat_broadcast_once_witness :
  viewers_nodup st_three /\
  count_to 3 (snd (step all_open (EMessage 2 (Some (mk "chat-message" "r1" "v1")) 7%Z) st_three))
    = 1.
Proof.
  split; [exact st_three_nodup|].
  destruct (chat_broadcast_once all_open 2 (mk "chat-message" "r1" "v1") 7%Z st_three
              (mkMeta "r1" Viewer "v1") (mkRoom 1 [2; 3]) st_three_nodup
              eq_refl eq_refl eq_refl eq_refl) as [_ [_ H]].
  rewrite H. reflexivity.
Defined.

Lemma host_departure_notifies_viewers_witness :
  viewers_nodup st_three /\ count_to 3 (snd (step all_open (EClose 1) st_three)) = 1.
Proof.
  split; [exact st_three_nodup|].
  destruct (host_departure_notifies_viewers all_open 1 st_three (mkMeta "r1" Host "h")
              (mkRoom 1 [2; 3]) st_three_nodup eq_refl eq_refl eq_refl) as [_ [_ [_ H]]].
  rewrite H. reflexivity.
Defined.

Lemma viewer_departure_updates_room_witness :
  connections st_three !! 2 = Some (mkMeta "r1" Viewer "v1") /\
  snd (step all_open (EClose 2) st_three) = [(1, OViewerLeft "r1" "v1")].
Proof.
  split; [reflexivity|].
  rewrite (proj2 (proj2 (proj2 (viewer_departure_updates_room all_open 2 st_three
             (mkMeta "r1" Viewer "v1") (mkRoom 1 [2; 3]) eq_refl eq_refl eq_refl)))).
  reflexivity.
Defined.

Lemma join_then_leave_restores_room_witness :
  ~ In 3 (viewers (mkRoom 1 [2])) /\
  rooms (fst (run [(all_open, EMessage 3 (Some (mk "join-room" "r1" "v2")) 0%Z);
                   (all_open, EMessage 3 (Some (mk "leave-room" "r1" "v2")) 1%Z)] st_setup))
    = rooms st_setup.
Proof.
  assert (Hn : ~ In 3 (viewers (mkRoom 1 [2]))).
  { simpl. intros [H|H]; [discriminate H | exact H]. }
  split; [exact Hn|].
  exact (proj1 (join_then_leave_restores_room all_open all_open 3 (mk "join-room" "r1" "v2")
                  (mk "leave-room" "r1" "v2") 0%Z 1%Z st_setup (mkRoom 1 [2])
                  eq_refl eq_refl eq_refl eq_refl Hn)).
Defined.

Lemma metadata_kept_and_registry_covered_witness :
  registered empty_server /\ registered st_three.
Proof.
  split; [exact registered_empty|].
  exact (proj1 (metadata_kept_and_registry_covered _ empty_server registered_empty)).
Defined.

End ServerMoreFacts.

(* ------------------------------------------------------------------ *)
(** ** Further properties of the client transport *)

Module TransportMoreFacts.
Import Transport TransportSpec TransportMore TransportFacts.

Section MoreFacts.
Context {wsu : WsUrl}.

Lemma eqb_neq_str (s t : string) : s <> t -> String.eqb s t = false.
Proof. intros H. apply String.eqb_neq. exact H. Qed.

Lemma safeSend_live ok i f s :
  holds_socket s = true ->
  ctrl (fst (safeSend ok i f s)) = ctrl s /\ ~ In ANewSocket (snd (safeSend ok i f s)).
Proof.
  unfold holds_socket, safeSend. destruct (ws s) as [[| | |]|]; try discriminate; intros _.
  - split; [reflexivity | intros [H|[]]; discriminate].
  - destruct (ok i); (split; [reflexivity | intros [H|[]]; discriminate]).
Qed.

Lemma rejoin_live ok j (s2 : svc) (a1 : list act) :
  holds_socket s2 = true -> ~ In ANewSocket a1 ->
  let r := match s2.(currentRoomId), s2.(currentUserId), s2.(currentRole) with
           | Some r, Some u, Some role =>
               if truthy (Some r) && truthy (Some u) then
                 let '(s3, a3) :=
                   match role with
                   | CHost => createRoom ok j r u s2
                   | CViewer => joinRoom ok j r u s2
                   end in (s3, a1 ++ a3)
               else (s2, a1)
           | _, _, _ => (s2, a1)
           end in
  ctrl (fst r) = ctrl s2 /\ ~ In ANewSocket (snd r).
Proof.
  intros Hs Ha r. subst r.
  destruct (currentRoomId s2) as [rr|]; [|auto].
  destruct (currentUserId s2) as [u|]; [|auto].
  destruct (currentRole s2) as [role|]; [|auto].
  destruct (truthy (Some rr) && truthy (Some u)); [|auto].
  destruct role.
  - unfold createRoom.
    destruct (safeSend_live ok j (FCreateRoom rr u) (set_current s2 (Some rr) (Some u) (Some CHost))
                Hs) as [H1 H2].
    destruct (safeSend ok j (FCreateRoom rr u) _) as [s3 a3]. cbn [fst snd] in *.
    split; [exact H1|]. rewrite in_app_iff. intros [H|H]; auto.
  - unfold joinRoom.
    destruct (safeSend_live ok j (FJoinRoom rr u) (set_current s2 (Some rr) (Some u) (Some CViewer))
                Hs) as [H1 H2].
    destruct (safeSend ok j (FJoinRoom rr u) _) as [s3 a3]. cbn [fst snd] in *.
    split; [exact H1|]. rewrite in_app_iff. intros [H|H]; auto.
Qed.

Lemma not_in_transmits (sent : list frame) :
  ~ In ANewSocket (map (fun f => ATransmit f true) sent).
Proof. rewrite in_map_iff. intros [f [H _]]. discriminate. Qed.

Lemma handleOpen_live ok s :
  holds_socket s = true ->
  ctrl (fst (handleOpen ok s)) = ctrl (set_heartbeat (set_attempts s 0) true) /\
  ~ In ANewSocket (snd (handleOpen ok s)).
Proof.
  intros Hs. unfold handleOpen.
  set (s0 := set_attempts s 0).
  assert (Hs0 : holds_socket s0 = true) by exact Hs.
  destruct (ws s0) as [[| | |]|] eqn:Ew;
    try (exact (rejoin_live ok 0 (set_heartbeat s0 true) [] Hs0 (fun H => H))).
  destruct (flush ok 0 (sendQueue s0)) as [[q sent] j] eqn:Ef.
  exact (rejoin_live ok j (set_heartbeat (set_queue s0 q) true) _ Hs0 (not_in_transmits sent)).
Qed.

Lemma handleClose_no_socket s : ~ In ANewSocket (snd (handleClose s)).
Proof.
  unfold handleClose. destruct (negb (intentionallyClosed _) && _ && _); [|intros []].
  unfold scheduleReconnect.
  destruct (negb (autoReconnect _) || negb (isStarted _)); [intros []|].
  destruct (Nat.ltb maxReconnectAttempts _); [intros []|]. intros [H|[]]; discriminate.
Qed.

(** X7: while the service holds a socket that is open or connecting, no
    call, socket event or timer opens another one. *)
Theorem no_second_socket_while_live (e : input) (s : svc) :
  holds_socket s = true -> ~ In ANewSocket (snd (tstep e s)).
Proof.
  intros Hs. destruct e; cbn [tstep].
  - unfold start. destruct (isStarted s); [intros []|].
    destruct autoConnect; [|intros []].
    unfold connect. cbn [ws]. unfold holds_socket in Hs.
    destruct (ws s) as [[| | |]|]; try discriminate; intros [].
  - unfold stop. destruct (ws s); [intros [H|[]]; discriminate | intros []].
  - exact (proj2 (safeSend_live ok 0 f s Hs)).
  - exact (proj2 (safeSend_live ok 0 (FCreateRoom r u) (set_current s _ _ _) Hs)).
  - exact (proj2 (safeSend_live ok 0 (FJoinRoom r u) (set_current s _ _ _) Hs)).
  - unfold leaveRoom.
    destruct (match r with Some r0 => Some r0 | None => currentRoomId s end) as [rid|]; [|intros []].
    destruct (truthy (Some rid)); [|intros []].
    pose proof (proj2 (safeSend_live ok 0 (FLeaveRoom rid) s Hs)) as H.
    destruct (safeSend ok 0 (FLeaveRoom rid) s) as [s1 a1]. exact H.
  - destruct (ws s) as [[| | |]|]; try (intros []).
    exact (proj2 (handleOpen_live ok (set_ws s (Some Open)) eq_refl)).
  - destruct (ws s) as [[| | |]|]; intros [].
  - destruct (ws s); [apply handleClose_no_socket | intros []].
  - exact (proj2 (handleOpen_live ok s Hs)).
  - apply handleClose_no_socket.
  - destruct (timerPending s); [|intros []].
    unfold connect. change (ws (set_timer s (reconnectTimer s) false)) with (ws s).
    unfold holds_socket in Hs.
    destruct (ws s) as [[| | |]|]; try discriminate; intros [].
  - destruct (heartbeatOn s); [|intros []].
    destruct (ws s) as [[| | |]|]; try (intros []).
    destruct (ok 0); [intros [H|[]]; discriminate | intros []].
Qed.

(** X8: the service does not check which socket an event comes from.
    With [WS_URL] accepted, when the held socket starts closing and a send
    is made, a second socket is opened; when the first socket's close
    event then arrives, the service drops its handle to the second one,
    which is still connecting, and schedules a reconnect; the next send
    opens a third socket, with the second never closed. *)
Theorem stale_close_drops_new_socket (s : svc) (f g : frame) (ok : oracle) :
  url_ok = true -> ws s = Some Open -> isStarted s = true -> autoReconnect s = true ->
  intentionallyClosed s = false -> reconnectAttempts s < maxReconnectAttempts ->
  snd (trun [SockClosing; ISafeSend f ok; StaleClose; ISafeSend g ok] s)
    = [AEnqueue f; ANewSocket;
       ASchedule (baseReconnectDelay * Z.min 30 (Z.of_nat (S (reconnectAttempts s))))%Z;
       AEnqueue g; ANewSocket] /\
  ws (fst (trun [SockClosing; ISafeSend f ok; StaleClose; ISafeSend g ok] s)) = Some Connecting.
Proof.
  intros Hu Hw Hst Ha Hi Hn.
  assert (Hlt : Nat.ltb maxReconnectAttempts (S (reconnectAttempts s)) = false)
    by (apply Nat.ltb_ge; unfold maxReconnectAttempts in *; lia).
  assert (E1 : tstep SockClosing s = (set_ws s (Some Closing), []))
    by (cbn [tstep]; rewrite Hw; reflexivity).
  set (s1 := set_ws s (Some Closing)) in E1.
  assert (E2 : tstep (ISafeSend f ok) s1
               = (set_ws (set_queue s1 (sendQueue s1 ++ [f])) (Some Connecting),
                  [AEnqueue f; ANewSocket]))
    by (cbn [tstep]; unfold safeSend, connect; rewrite Hu; reflexivity).
  set (s2 := set_ws (set_queue s1 (sendQueue s1 ++ [f])) (Some Connecting)) in E2.
  assert (E3 : snd (tstep StaleClose s2)
               = [ASchedule (baseReconnectDelay * Z.min 30 (Z.of_nat (S (reconnectAttempts s))))%Z]
               /\ ws (fst (tstep StaleClose s2)) = None).
  { cbn [tstep]. unfold handleClose.
    change (intentionallyClosed (set_heartbeat (set_ws s2 None) false)) with (intentionallyClosed s).
    change (autoReconnect (set_heartbeat (set_ws s2 None) false)) with (autoReconnect s).
    change (isStarted (set_heartbeat (set_ws s2 None) false)) with (isStarted s).
    rewrite Hi, Ha, Hst. cbn [negb andb]. unfold scheduleReconnect.
    change (autoReconnect (set_heartbeat (set_ws s2 None) false)) with (autoReconnect s).
    change (isStarted (set_heartbeat (set_ws s2 None) false)) with (isStarted s).
    change (reconnectAttempts (set_heartbeat (set_ws s2 None) false)) with (reconnectAttempts s).
    rewrite Ha, Hst. cbn [negb orb]. rewrite Hlt. unfold clearReconnectTimer.
    change (reconnectTimer (set_attempts (set_heartbeat (set_ws s2 None) false)
                              (S (reconnectAttempts s)))) with (reconnectTimer s).
    destruct (reconnectTimer s); split; reflexivity. }
  cbn [trun]. rewrite E1. cbn [fst snd]. rewrite E2.
  destruct (tstep StaleClose s2) as [s3 a3]. cbn [fst snd] in E3. destruct E3 as [Ea Ew].
  subst a3. cbn [tstep]. unfold safeSend, connect. rewrite Ew.
  change (ws (set_queue s3 (sendQueue s3 ++ [g]))) with (ws s3). rewrite Ew, Hu.
  split; reflexivity.
Qed.

Lemma scheduleReconnect_flags s :
  isStarted (fst (scheduleReconnect s)) = isStarted s /\
  heartbeatOn (fst (scheduleReconnect s)) = heartbeatOn s /\
  (isStarted s = false -> snd (scheduleReconnect s) = []).
Proof.
  unfold scheduleReconnect. destruct (isStarted s) eqn:Hs.
  - rewrite orb_false_r. destruct (negb (autoReconnect s)); [auto|].
    cbv zeta. destruct (Nat.ltb maxReconnectAttempts (S (reconnectAttempts s))).
    + cbn [fst set_attempts isStarted heartbeatOn]. rewrite Hs. repeat split; try discriminate.
    + unfold clearReconnectTimer. cbn [reconnectTimer set_attempts].
      destruct (reconnectTimer s); cbn [fst set_timer set_attempts isStarted heartbeatOn];
        rewrite Hs; repeat split; try discriminate.
  - rewrite orb_true_r. auto.
Qed.

Lemma connect_flags s :
  isStarted (fst (connect s)) = isStarted s /\ heartbeatOn (fst (connect s)) = heartbeatOn s /\
  (isStarted s = false -> Forall (fun a => is_schedule a = false) (snd (connect s))).
Proof.
  destruct (scheduleReconnect_flags s) as [H1 [H2 H3]].
  unfold connect. destruct (ws s) as [[| | |]|]; try destruct url_ok;
    repeat split; try exact H1; try exact H2; intros Hs; rewrite ?(H3 Hs); repeat constructor.
Qed.

Lemma safeSend_flags ok i f s :
  isStarted (fst (safeSend ok i f s)) = isStarted s /\
  heartbeatOn (fst (safeSend ok i f s)) = heartbeatOn s /\
  (isStarted s = false -> Forall (fun a => is_schedule a = false) (snd (safeSend ok i f s))).
Proof.
  unfold safeSend. destruct (ws s) as [[| | |]|];
    [repeat constructor | destruct (ok i); repeat constructor | ..].
  all: destruct (connect_flags (set_queue s (sendQueue s ++ [f]))) as [H1 [H2 H3]];
    destruct (connect (set_queue s (sendQueue s ++ [f]))) as [s1 a1];
    cbn [fst snd] in *; rewrite H1, H2; split; [reflexivity|]; split; [reflexivity|];
    intros Hs; constructor; [reflexivity | exact (H3 Hs)].
Qed.

Lemma rejoin_flags ok j (s2 : svc) (a1 : list act) :
  isStarted s2 = false -> Forall (fun a => is_schedule a = false) a1 ->
  let r := match s2.(currentRoomId), s2.(currentUserId), s2.(currentRole) with
           | Some r, Some u, Some role =>
               if truthy (Some r) && truthy (Some u) then
                 let '(s3, a3) :=
                   match role with
                   | CHost => createRoom ok j r u s2
                   | CViewer => joinRoom ok j r u s2
                   end in (s3, a1 ++ a3)
               else (s2, a1)
           | _, _, _ => (s2, a1)
           end in
  isStarted (fst r) = isStarted s2 /\ Forall (fun a => is_schedule a = false) (snd r).
Proof.
  intros Hs Ha r. subst r.
  destruct (currentRoomId s2) as [rr|]; [|auto].
  destruct (currentUserId s2) as [u|]; [|auto].
  destruct (currentRole s2) as [role|]; [|auto].
  destruct (truthy (Some rr) && truthy (Some u)); [|auto].
  destruct role.
  - unfold createRoom.
    destruct (safeSend_flags ok j (FCreateRoom rr u) (set_current s2 (Some rr) (Some u) (Some CHost)))
      as [H1 [_ H3]].
    destruct (safeSend ok j (FCreateRoom rr u) _) as [s3 a3]. cbn [fst snd] in *.
    split; [exact H1 | apply Forall_app; split; [exact Ha | exact (H3 Hs)]].
  - unfold joinRoom.
    destruct (safeSend_flags ok j (FJoinRoom rr u) (set_current s2 (Some rr) (Some u) (Some CViewer)))
      as [H1 [_ H3]].
    destruct (safeSend ok j (FJoinRoom rr u) _) as [s3 a3]. cbn [fst snd] in *.
    split; [exact H1 | apply Forall_app; split; [exact Ha | exact (H3 Hs)]].
Qed.

Lemma transmits_no_schedule (sent : list frame) :
  Forall (fun a => is_schedule a = false) (map (fun f => ATransmit f true) sent).
Proof. induction sent; simpl; constructor; auto. Qed.

Lemma handleOpen_flags ok s :
  isStarted s = false ->
  isStarted (fst (handleOpen ok s)) = isStarted s /\
  Forall (fun a => is_schedule a = false) (snd (handleOpen ok s)).
Proof.
  intros Hs. unfold handleOpen. set (s0 := set_attempts s 0).
  destruct (ws s0) as [[| | |]|] eqn:Ew;
    try (exact (rejoin_flags ok 0 (set_heartbeat s0 true) [] Hs ltac:(constructor))).
  destruct (flush ok 0 (sendQueue s0)) as [[q sent] j] eqn:Ef.
  exact (rejoin_flags ok j (set_heartbeat (set_queue s0 q) true) _ Hs (transmits_no_schedule sent)).
Qed.

Lemma handleClose_flags s :
  isStarted (fst (handleClose s)) = isStarted s /\ heartbeatOn (fst (handleClose s)) = false /\
  (isStarted s = false -> Forall (fun a => is_schedule a = false) (snd (handleClose s))).
Proof.
  unfold handleClose. cbn [isStarted set_heartbeat set_ws].
  destruct (negb (intentionallyClosed _) && _ && _) eqn:E.
  - unfold scheduleReconnect.
    destruct (negb (autoReconnect _) || negb (isStarted _)); [repeat split; intros; constructor|].
    destruct (Nat.ltb maxReconnectAttempts _).
    + repeat split. intros H. rewrite H, andb_false_r in E. discriminate.
    + unfold clearReconnectTimer. cbn.
      destruct (reconnectTimer s); (repeat split; intros H; rewrite H, andb_false_r in E; discriminate).
  - repeat split. intros _. constructor.
Qed.

Lemma tstep_stopped e s :
  is_start e = false -> isStarted s = false ->
  isStarted (fst (tstep e s)) = false /\ Forall (fun a => is_schedule a = false) (snd (tstep e s)).
Proof.
  intros He Hs. destruct e; cbn [tstep is_start] in *; try discriminate.
  - unfold stop. cbn [isStarted]. split; [reflexivity|]. destruct (ws s); repeat constructor.
  - destruct (safeSend_flags ok 0 f s) as [H1 [_ H3]]. rewrite H1. auto.
  - destruct (safeSend_flags ok 0 (FCreateRoom r u) (set_current s (Some r) (Some u) (Some CHost)))
      as [H1 [_ H3]]. unfold createRoom. rewrite H1. split; [exact Hs | exact (H3 Hs)].
  - destruct (safeSend_flags ok 0 (FJoinRoom r u) (set_current s (Some r) (Some u) (Some CViewer)))
      as [H1 [_ H3]]. unfold joinRoom. rewrite H1. split; [exact Hs | exact (H3 Hs)].
  - unfold leaveRoom.
    destruct (match r with Some r0 => Some r0 | None => currentRoomId s end) as [rid|];
      [|split; [exact Hs | constructor]].
    destruct (truthy (Some rid)); [|split; [exact Hs | constructor]].
    destruct (safeSend_flags ok 0 (FLeaveRoom rid) s) as [H1 [_ H3]].
    destruct (safeSend ok 0 (FLeaveRoom rid) s) as [s1 a1]. cbn [fst snd] in *.
    split; [exact (eq_trans H1 Hs) | exact (H3 Hs)].
  - destruct (ws s) as [[| | |]|]; try (split; [exact Hs | constructor]).
    destruct (handleOpen_flags ok (set_ws s (Some Open)) Hs) as [H1 H2]. rewrite H1. auto.
  - destruct (ws s) as [[| | |]|]; split; try exact Hs; constructor.
  - destruct (ws s); [|split; [exact Hs | constructor]].
    destruct (handleClose_flags (set_ws s (Some Closed))) as [H1 [_ H3]].
    rewrite H1. auto.
  - destruct (handleOpen_flags ok s Hs) as [H1 H2]. rewrite H1. auto.
  - destruct (handleClose_flags s) as [H1 [_ H3]]. rewrite H1. auto.
  - destruct (timerPending s); [|split; [exact Hs | constructor]].
    destruct (connect_flags (set_timer s (reconnectTimer s) false)) as [H1 [_ H3]].
    rewrite H1. split; [exact Hs | exact (H3 Hs)].
  - destruct (heartbeatOn s); [|split; [exact Hs | constructor]].
    destruct (ws s) as [[| | |]|]; try (split; [exact Hs | constructor]).
    destruct (ok 0); (split; [exact Hs | repeat constructor]).
Qed.

Lemma trun_stopped es s :
  forallb (fun e => negb (is_start e)) es = true -> isStarted s = false ->
  Forall (fun a => is_schedule a = false) (snd (trun es s)).
Proof.
  revert s. induction es as [|e es IH]; intros s Hes Hs; [constructor|].
  cbn [forallb] in Hes. apply andb_true_iff in Hes as [He Hes]. apply negb_true_iff in He.
  cbn [trun]. destruct (tstep_stopped e s He Hs) as [H1 H2].
  destruct (tstep e s) as [s1 a1]. cbn [fst snd] in *.
  pose proof (IH s1 Hes H1) as H3. destruct (trun es s1) as [s2 a2]. cbn [snd] in *.
  apply Forall_app. auto.
Qed.

(** X9: [stop()] closes the held socket, empties the queue, forgets the
    room and the pending reconnect timer; from then on, until [start()] is
    called again, no call, socket event or timer schedules a reconnect. *)
Theorem stopped_service_never_reconnects (s : svc) (es : list input) :
  forallb (fun e => negb (is_start e)) es = true ->
  snd (stop s) = (match ws s with Some _ => [ACloseSocket] | None => [] end) /\
  ws (fst (stop s)) = None /\ sendQueue (fst (stop s)) = [] /\
  currentRoomId (fst (stop s)) = None /\ reconnectTimer (fst (stop s)) = None /\
  timerPending (fst (stop s)) = false /\
  Forall (fun a => is_schedule a = false) (snd (trun es (fst (stop s)))).
Proof.
  intros Hes. repeat split. apply trun_stopped; [exact Hes | reflexivity].
Qed.

Lemma closed_schedules_next s :
  ws s <> None -> intentionallyClosed s = false -> autoReconnect s = true ->
  isStarted s = true -> reconnectAttempts s < maxReconnectAttempts ->
  snd (tstep SockClosed s)
    = [ASchedule (baseReconnectDelay * Z.min 30 (Z.of_nat (S (reconnectAttempts s))))%Z] /\
  reconnectAttempts (fst (tstep SockClosed s)) = S (reconnectAttempts s).
Proof.
  intros Hw Hi Ha Hs Hn. cbn [tstep]. destruct (ws s) as [w|]; [|congruence].
  unfold handleClose.
  change (intentionallyClosed (set_heartbeat (set_ws (set_ws s (Some Closed)) None) false))
    with (intentionallyClosed s).
  change (autoReconnect (set_heartbeat (set_ws (set_ws s (Some Closed)) None) false))
    with (autoReconnect s).
  change (isStarted (set_heartbeat (set_ws (set_ws s (Some Closed)) None) false))
    with (isStarted s).
  rewrite Hi, Ha, Hs. cbn [negb andb]. unfold scheduleReconnect.
  change (autoReconnect (set_heartbeat (set_ws (set_ws s (Some Closed)) None) false))
    with (autoReconnect s).
  change (isStarted (set_heartbeat (set_ws (set_ws s (Some Closed)) None) false))
    with (isStarted s).
  change (reconnectAttempts (set_heartbeat (set_ws (set_ws s (Some Closed)) None) false))
    with (reconnectAttempts s).
  rewrite Ha, Hs. cbn [negb orb].
  replace (Nat.ltb maxReconnectAttempts (S (reconnectAttempts s))) with false
    by (symmetry; apply Nat.ltb_ge; unfold maxReconnectAttempts in *; lia).
  unfold clearReconnectTimer.
  change (reconnectTimer (set_attempts (set_heartbeat (set_ws (set_ws s (Some Closed)) None) false)
                            (S (reconnectAttempts s)))) with (reconnectTimer s).
  destruct (reconnectTimer s); split; reflexivity.
Qed.

(** X10: an open resets the backoff: whatever the number of failed
    attempts before, once the connecting socket opens the count is 0, and
    if it then closes unexpectedly while the service runs, the reconnect is
    scheduled as attempt 1, after 1000 ms. *)
Theorem open_resets_backoff (ok : oracle) (s : svc) :
  ws s = Some Connecting -> isStarted s = true -> autoReconnect s = true ->
  intentionallyClosed s = false ->
  reconnectAttempts (fst (tstep (SockOpened ok) s)) = 0 /\
  snd (tstep SockClosed (fst (tstep (SockOpened ok) s))) = [ASchedule 1000%Z] /\
  reconnectAttempts (fst (tstep SockClosed (fst (tstep (SockOpened ok) s)))) = 1.
Proof.
  intros Hw Hst Ha Hi.
  assert (E : tstep (SockOpened ok) s = handleOpen ok (set_ws s (Some Open)))
    by (cbn [tstep]; rewrite Hw; reflexivity).
  rewrite E. destruct (handleOpen_live ok (set_ws s (Some Open)) eq_refl) as [Hc _].
  destruct (handleOpen ok (set_ws s (Some Open))) as [s1 a1]. cbn [fst] in *.
  unfold ctrl in Hc. injection Hc as Hw1 Hat1 _ _ Hi1 Ha1 Hs1 _.
  cbn [ws reconnectAttempts intentionallyClosed autoReconnect isStarted
       set_heartbeat set_attempts set_ws] in Hw1, Hat1, Hi1, Ha1, Hs1.
  split; [exact Hat1|].
  destruct (closed_schedules_next s1) as [H1 H2];
    [rewrite Hw1; discriminate | rewrite Hi1; exact Hi | rewrite Ha1; exact Ha
    | rewrite Hs1; exact Hst | rewrite Hat1; unfold maxReconnectAttempts; lia |].
  rewrite H1, H2, Hat1. split; reflexivity.
Qed.

Lemma reopen_shape ok (s : svc) r u role q' sent j :
  ws s = Some Connecting -> currentRoomId s = Some r -> currentUserId s = Some u ->
  currentRole s = Some role -> r <> "" -> u <> "" ->
  flush ok 0 (sendQueue s) = (q', sent, j) -> ok j = true ->
  snd (tstep (SockOpened ok) s)
    = map (fun f => ATransmit f true) sent ++ [ATransmit (rejoin_frame role r u) false] /\
  sendQueue (fst (tstep (SockOpened ok) s)) = q'.
Proof.
  intros Hw Hr Hu Hro Hr0 Hu0 Hf Hok. cbn [tstep]. rewrite Hw. unfold handleOpen.
  change (ws (set_attempts (set_ws s (Some Open)) 0)) with (Some Open). cbn iota.
  change (sendQueue (set_attempts (set_ws s (Some Open)) 0)) with (sendQueue s). rewrite Hf.
  cbn iota beta.
  change (currentRoomId (set_heartbeat (set_queue (set_attempts (set_ws s (Some Open)) 0) q') true))
    with (currentRoomId s).
  change (currentUserId (set_heartbeat (set_queue (set_attempts (set_ws s (Some Open)) 0) q') true))
    with (currentUserId s).
  change (currentRole (set_heartbeat (set_queue (set_attempts (set_ws s (Some Open)) 0) q') true))
    with (currentRole s).
  rewrite Hr, Hu, Hro. unfold truthy. rewrite (eqb_neq_str _ _ Hr0), (eqb_neq_str _ _ Hu0).
  cbn [negb andb].
  destruct role; unfold createRoom, joinRoom, safeSend; cbn [ws set_current set_heartbeat set_queue
    set_attempts set_ws]; rewrite Hok; split; reflexivity.
Qed.

(** X11: when the connecting socket opens while a room is remembered
    (non-empty room and user ids), the service first flushes the queue and
    then re-sends ["create-room"] (as host) or ["join-room"] (as viewer)
    for that room: after the whole queue if every send succeeds; if the
    send of the [k]-th queued frame throws and the next send succeeds, the
    rejoin frame is sent at once, ahead of the frames left in the queue. *)
Theorem reopen_flushes_then_rejoins (ok : oracle) (s : svc) (r u : string) (role : crole) :
  ws s = Some Connecting -> currentRoomId s = Some r -> currentUserId s = Some u ->
  currentRole s = Some role -> r <> "" -> u <> "" ->
  ((forall j, j <= length (sendQueue s) -> ok j = true) ->
   snd (tstep (SockOpened ok) s)
     = map (fun f => ATransmit f true) (sendQueue s) ++ [ATransmit (rejoin_frame role r u) false] /\
   sendQueue (fst (tstep (SockOpened ok) s)) = []) /\
  (forall k, k < length (sendQueue s) -> (forall j, j < k -> ok j = true) -> ok k = false ->
   ok (S k) = true ->
   snd (tstep (SockOpened ok) s)
     = map (fun f => ATransmit f true) (firstn k (sendQueue s))
       ++ [ATransmit (rejoin_frame role r u) false] /\
   sendQueue (fst (tstep (SockOpened ok) s)) = skipn k (sendQueue s)).
Proof.
  intros Hw Hr Hu Hro Hr0 Hu0. split.
  - intros Hok.
    assert (Hf : flush ok 0 (sendQueue s) = ([], sendQueue s, 0 + length (sendQueue s))).
    { apply flush_all_ok. intros j Hj. apply Hok. lia. }
    exact (reopen_shape ok s r u role _ _ _ Hw Hr Hu Hro Hr0 Hu0 Hf (Hok _ (le_n _))).
  - intros k Hk Hok Hfail Hnext.
    pose proof (flush_fail_at ok 0 (sendQueue s) k Hk Hok Hfail) as Hf.
    exact (reopen_shape ok s r u role _ _ _ Hw Hr Hu Hro Hr0 Hu0 Hf Hnext).
Qed.

Lemma handleOpen_no_room ok s :
  currentRoomId s = None -> Forall (fun a => is_flush a = true) (snd (handleOpen ok s)).
Proof.
  intros Hr. unfold handleOpen.
  destruct (ws (set_attempts s 0)) as [[| | |]|];
    try (change (currentRoomId (set_heartbeat (set_attempts s 0) true)) with (currentRoomId s);
         rewrite Hr; constructor).
  destruct (flush ok 0 (sendQueue (set_attempts s 0))) as [[q sent] j].
  change (currentRoomId (set_heartbeat (set_queue (set_attempts s 0) q) true)) with (currentRoomId s).
  rewrite Hr. cbn [snd]. clear. induction sent; constructor; auto.
Qed.

(** X12: [leaveRoom()] with no argument does nothing when no room is
    remembered; otherwise it sends ["leave-room"] for the remembered room
    and forgets the room, the user and the role, so a later open of a
    socket sends only the queued frames and rejoins nothing. *)
Theorem leave_forgets_room (ok ok' : oracle) (s : svc) :
  (truthy (currentRoomId s) = false -> leaveRoom ok None s = (s, [])) /\
  (forall r, currentRoomId s = Some r -> r <> "" ->
     snd (leaveRoom ok None s) = snd (safeSend ok 0 (FLeaveRoom r) s) /\
     currentRoomId (fst (leaveRoom ok None s)) = None /\
     currentUserId (fst (leaveRoom ok None s)) = None /\
     currentRole (fst (leaveRoom ok None s)) = None /\
     Forall (fun a => is_flush a = true) (snd (handleOpen ok' (fst (leaveRoom ok None s))))).
Proof.
  split.
  - intros Ht. unfold leaveRoom. destruct (currentRoomId s) as [r|]; [|reflexivity].
    cbn [truthy] in *. rewrite Ht. reflexivity.
  - intros r Hr Hr0. unfold leaveRoom. rewrite Hr.
    assert (Ht : truthy (Some r) = true)
      by (unfold truthy; rewrite (eqb_neq_str _ _ Hr0); reflexivity).
    rewrite Ht. destruct (safeSend ok 0 (FLeaveRoom r) s) as [s1 a1]. cbn [fst snd].
    repeat split. apply handleOpen_no_room. reflexivity.
Qed.

Lemma tstep_heartbeat_off e s :
  is_open_event e = false -> heartbeatOn s = false -> heartbeatOn (fst (tstep e s)) = false.
Proof.
  intros He Hh. destruct e; cbn [tstep is_open_event] in *; try discriminate.
  - unfold start. destruct (isStarted s); [exact Hh|].
    destruct autoConnect; [|exact Hh].
    rewrite (proj1 (proj2 (connect_flags _))). exact Hh.
  - reflexivity.
  - rewrite (proj1 (proj2 (safeSend_flags ok 0 f s))). exact Hh.
  - unfold createRoom. rewrite (proj1 (proj2 (safeSend_flags _ _ _ _))). exact Hh.
  - unfold joinRoom. rewrite (proj1 (proj2 (safeSend_flags _ _ _ _))). exact Hh.
  - unfold leaveRoom.
    destruct (match r with Some r0 => Some r0 | None => currentRoomId s end) as [rid|]; [|exact Hh].
    destruct (truthy (Some rid)); [|exact Hh].
    pose proof (proj1 (proj2 (safeSend_flags ok 0 (FLeaveRoom rid) s))) as H.
    destruct (safeSend ok 0 (FLeaveRoom rid) s) as [s1 a1]. cbn [fst] in *.
    exact (eq_trans H Hh).
  - destruct (ws s) as [[| | |]|]; exact Hh.
  - destruct (ws s); [exact (proj1 (proj2 (handleClose_flags _))) | exact Hh].
  - exact (proj1 (proj2 (handleClose_flags _))).
  - destruct (timerPending s); [|exact Hh].
    rewrite (proj1 (proj2 (connect_flags _))). exact Hh.
  - rewrite Hh. exact Hh.
Qed.

(** X13: once the held socket has closed, the heartbeat sends nothing: a
    heartbeat tick after any sequence of calls and events without a socket
    opening, the service's own or a stale one, sends no ping. *)
Theorem heartbeat_silent_after_close (s : svc) (es : list input) (ok : oracle) (ts : Z) :
  ws s <> None -> forallb (fun e => negb (is_open_event e)) es = true ->
  snd (tstep (HeartbeatTick ok ts) (fst (trun es (fst (tstep SockClosed s))))) = [].
Proof.
  intros Hw Hes.
  assert (H0 : heartbeatOn (fst (tstep SockClosed s)) = false).
  { cbn [tstep]. destruct (ws s); [|congruence]. exact (proj1 (proj2 (handleClose_flags _))). }
  assert (Hh : heartbeatOn (fst (trun es (fst (tstep SockClosed s)))) = false).
  { revert H0. generalize (fst (tstep SockClosed s)) as s0. clear Hw.
    induction es as [|e es IH]; intros s0 H0; [exact H0|].
    cbn [forallb] in Hes. apply andb_true_iff in Hes as [He Hes]. apply negb_true_iff in He.
    cbn [trun]. pose proof (tstep_heartbeat_off e s0 He H0) as H1.
    destruct (tstep e s0) as [s1 a1]. cbn [fst] in H1.
    pose proof (IH Hes s1 H1) as H2. destruct (trun es s1) as [s2 a2]. exact H2. }
  revert Hh. generalize (fst (trun es (fst (tstep SockClosed s)))) as s2. intros s2 Hh.
  cbn [tstep]. rewrite Hh. reflexivity.
Qed.

(** X14: [safeSend] transmits a frame directly exactly when
    [isConnected()] holds and the send does not throw; otherwise the frame
    is queued. [isConnected()] is [getConnectionState() === 'open'], and
    after [stop()] the state is ['closed']. *)
Theorem direct_send_iff_connected (ok : oracle) (i : nat) (f : frame) (s : svc) :
  (snd (safeSend ok i f s) = [ATransmit f false] <-> isConnected s && ok i = true) /\
  (isConnected s && ok i = false -> enqueued (snd (safeSend ok i f s)) = [f]) /\
  (isConnected s = true <-> getConnectionState s = "open") /\
  getConnectionState (fst (stop s)) = "closed".
Proof.
  unfold safeSend, connect, set_queue, isConnected, getConnectionState. cbn [ws].
  destruct (ws s) as [[| | |]|]; cbn [andb]; try destruct url_ok;
    try (destruct (ok i)); try (match goal with |- context [scheduleReconnect ?x] =>
      pose proof (proj2 (proj2 (scheduleReconnect_fifo x))) as He;
      destruct (scheduleReconnect x) as [s1 a1]; cbn [snd enqueued] in * end);
    repeat split; intros H; try reflexivity; try discriminate H; rewrite ?He; reflexivity.
Qed.

End MoreFacts.

Lemma no_second_socket_while_live_witness :
  holds_socket (fst (trun [IStart true] init)) = true /\
  ~ In ANewSocket (snd (tstep (ISafeSend (FMsg "x") all_ok) (fst (trun [IStart true] init)))).
Proof.
  split; [reflexivity|].
  exact (no_second_socket_while_live (ISafeSend (FMsg "x") all_ok) (fst (trun [IStart true] init))
           eq_refl).
Defined.

Lemma stale_close_drops_new_socket_witness :
  let s := fst (trun [IStart true; SockOpened all_ok] init) in
  ws s = Some Open /\
  snd (trun [SockClosing; ISafeSend (FMsg "a") all_ok; StaleClose; ISafeSend (FMsg "b") all_ok] s)
    = [AEnqueue (FMsg "a"); ANewSocket; ASchedule 1000%Z; AEnqueue (FMsg "b"); ANewSocket].
Proof.
  intros s. split; [reflexivity|].
  assert (Hn : reconnectAttempts s < maxReconnectAttempts) by (vm_compute; lia).
  rewrite (proj1 (stale_close_drops_new_socket (wsu := ws_url_default) s (FMsg "a") (FMsg "b")
                    all_ok
                    eq_refl eq_refl eq_refl eq_refl eq_refl Hn)).
  reflexivity.
Defined.

Lemma stopped_service_never_reconnects_witness :
  let es := [SockClosed; TimerFired; ISafeSend (FMsg "x") all_ok; SockOpened all_ok; SockClosed] in
  forallb (fun e => negb (is_start e)) es = true /\
  Forall (fun a => is_schedule a = false)
    (snd (trun es (fst (stop (fst (trun [IStart true; SockOpened all_ok] init)))))).
Proof.
  intros es. split; [reflexivity|].
  exact (proj2 (proj2 (proj2 (proj2 (proj2 (proj2
           (stopped_service_never_reconnects (fst (trun [IStart true; SockOpened all_ok] init))
              es eq_refl))))))).
Defined.

Lemma open_resets_backoff_witness :
  let s := fst (trun [IStart true] init) in
  ws s = Some Connecting /\
  snd (tstep SockClosed (fst (tstep (SockOpened all_ok) s))) = [ASchedule 1000%Z].
Proof.
  intros s. split; [reflexivity|].
  exact (proj1 (proj2 (open_resets_backoff all_ok s eq_refl eq_refl eq_refl eq_refl))).
Defined.

(** A host that creates its room before the socket is up: the queued
    ["create-room"] is flushed and then re-sent by the rejoin. *)
Lemma reopen_flushes_then_rejoins_witness :
  let s := fst (trun [IStart false; ICreateRoom "r1" "h" all_ok] init) in
  ws s = Some Connecting /\ sendQueue s = [FCreateRoom "r1" "h"] /\
  snd (tstep (SockOpened all_ok) s)
    = [ATransmit (FCreateRoom "r1" "h") true; ATransmit (FCreateRoom "r1" "h") false].
Proof.
  intros s. split; [reflexivity|]. split; [reflexivity|].
  assert (Hr : "r1" <> "") by discriminate.
  assert (Hu : "h" <> "") by discriminate.
  rewrite (proj1 (proj1 (reopen_flushes_then_rejoins all_ok s "r1" "h" CHost
                           eq_refl eq_refl eq_refl eq_refl Hr Hu) (fun _ _ => eq_refl))).
  reflexivity.
Defined.

Lemma leave_forgets_room_witness :
  let s := fst (trun [IStart true; SockOpened all_ok; ICreateRoom "r1" "h" all_ok] init) in
  currentRoomId s = Some "r1" /\
  snd (leaveRoom all_ok None s) = [ATransmit (FLeaveRoom "r1") false] /\
  currentRoomId (fst (leaveRoom all_ok None s)) = None.
Proof.
  intros s. split; [reflexivity|].
  assert (Hr : "r1" <> "") by discriminate.
  destruct (proj2 (leave_forgets_room all_ok all_ok s) "r1" eq_refl Hr) as [H1 [H2 _]].
  split; [rewrite H1; reflexivity | exact H2].
Defined.

Lemma heartbeat_silent_after_close_witness :
  let s := fst (trun [IStart true; SockOpened all_ok] init) in
  ws s <> None /\ heartbeatOn s = true /\
  snd (tstep (HeartbeatTick all_ok 5%Z)
         (fst (trun [ISafeSend (FMsg "x") all_ok; TimerFired] (fst (tstep SockClosed s))))) = [].
Proof.
  intros s.
  assert (Hw : ws s <> None) by discriminate.
  split; [exact Hw|]. split; [reflexivity|].
  exact (heartbeat_silent_after_close s [ISafeSend (FMsg "x") all_ok; TimerFired] all_ok 5%Z
           Hw eq_refl).
Defined.

Lemma direct_send_iff_connected_witness :
  let s := fst (trun [IStart true] init) in
  isConnected s && all_ok 0 = false /\
  enqueued (snd (safeSend all_ok 0 (FMsg "x") s)) = [FMsg "x"].
Proof.
  intros s. split; [reflexivity|].
  exact (proj1 (proj2 (direct_send_iff_connected all_ok 0 (FMsg "x") s)) eq_refl).
Defined.

End TransportMoreFacts.

(* ------------------------------------------------------------------ *)
(** ** Properties of the listener registry *)

Module ListenersFacts.
Import Listeners.

Lemma reg_insert_eq (m : registry) t l : <[t := l]> m !! t = Some l.
Proof. apply (lookup_insert_eq (M := gmap string)). Qed.

Lemma reg_insert_ne (m : registry) t t' l : t <> t' -> <[t := l]> m !! t' = m !! t'.
Proof. intros H. apply (lookup_insert_ne (M := gmap string)). exact H. Qed.

Lemma reg_insert_insert (m : registry) t l l' : <[t := l]> (<[t := l']> m) = <[t := l]> m.
Proof. apply (insert_insert_eq (M := gmap string)). Qed.

Lemma reg_insert_id (m : registry) t l : m !! t = Some l -> <[t := l]> m = m.
Proof. apply (insert_id (M := gmap string)). Qed.

Lemma indexOf_notin f l : ~ In f l -> indexOf f l = None.
Proof.
  induction l as [|g l IH]; intros H; [reflexivity|]. simpl.
  destruct (Nat.eqb f g) eqn:E.
  - apply Nat.eqb_eq in E. subst. exfalso. apply H. left. reflexivity.
  - rewrite IH; [reflexivity|]. intros Hin. apply H. right. exact Hin.
Qed.

Lemma indexOf_app_first f l r : ~ In f l -> indexOf f (l ++ f :: r) = Some (length l).
Proof.
  induction l as [|g l IH]; intros H; simpl; [rewrite Nat.eqb_refl; reflexivity|].
  destruct (Nat.eqb f g) eqn:E.
  - apply Nat.eqb_eq in E. subst. exfalso. apply H. left. reflexivity.
  - rewrite IH; [reflexivity|]. intros Hin. apply H. right. exact Hin.
Qed.

Lemma splice1_app (l r : list cb) x : splice1 (length l) (l ++ x :: r) = l ++ r.
Proof.
  unfold splice1. induction l as [|g l IH]; [reflexivity|].
  simpl. f_equal. exact IH.
Qed.

Lemma get_on m t f t' :
  get_or_empty (on t f m) t' = if String.eqb t t' then get_or_empty m t ++ [f] else get_or_empty m t'.
Proof.
  unfold on, get_or_empty.
  destruct (String.eqb t t') eqn:E.
  - apply String.eqb_eq in E. subst t'.
    destruct (m !! t) as [arr|] eqn:Em; cbn iota beta.
    + rewrite Em; cbn iota beta. rewrite reg_insert_eq. reflexivity.
    + rewrite reg_insert_eq; cbn iota beta. rewrite reg_insert_eq. reflexivity.
  - apply String.eqb_neq in E.
    destruct (m !! t) as [arr|] eqn:Em; cbn iota beta.
    + rewrite Em; cbn iota beta. rewrite reg_insert_ne by exact E. reflexivity.
    + rewrite reg_insert_eq; cbn iota beta. rewrite !reg_insert_ne by exact E. reflexivity.
Qed.

Lemma on_present m t f arr : m !! t = Some arr -> on t f m = <[t := arr ++ [f]]> m.
Proof. intros H. unfold on. rewrite H, H. reflexivity. Qed.

Lemma off_notin m t f : ~ In f (get_or_empty m t) -> off t f m = m.
Proof.
  unfold off, get_or_empty. destruct (m !! t) as [arr|]; [|reflexivity].
  intros H. rewrite (indexOf_notin f arr H). reflexivity.
Qed.

Lemma on_lookup m t f : on t f m !! t = Some (get_or_empty m t ++ [f]).
Proof.
  unfold on, get_or_empty. destruct (m !! t) as [arr|] eqn:Em; cbn iota beta.
  - rewrite Em; cbn iota beta. apply reg_insert_eq.
  - rewrite reg_insert_eq; cbn iota beta. apply reg_insert_eq.
Qed.

(** Removing [f] right after appending it. *)
Lemma off_on_get m t f t' :
  ~ In f (get_or_empty m t) ->
  get_or_empty (off t f (on t f m)) t' = get_or_empty m t'.
Proof.
  intros H. unfold off at 1.
  rewrite on_lookup. rewrite (indexOf_app_first f _ [] H).
  rewrite (splice1_app _ [] f), app_nil_r.
  unfold get_or_empty at 1. destruct (decide (t = t')) as [<-|Hne].
  - rewrite reg_insert_eq. reflexivity.
  - rewrite reg_insert_ne by exact Hne.
    pose proof (get_on m t f t') as G. unfold get_or_empty in G at 1.
    rewrite ((proj2 (String.eqb_neq t t')) Hne) in G. exact G.
Qed.

(** X15 (on, off): registering a callback that was not registered for the
    type and then unregistering it gives back the same dispatch for every
    incoming message, and the very same map when the type already had an
    array; [off] of a callback that is not registered changes nothing; and
    after registering the same callback twice, [off] removes only the first
    registration (the one at the end of the old array), so the callback
    stays registered once. *)
Theorem on_then_off_restores (throws : cb -> bool) (parsed : option (option string))
        (t : string) (f : cb) (m : registry) :
  ~ In f (get_or_empty m t) ->
  handleMessage throws parsed (off t f (on t f m)) = handleMessage throws parsed m /\
  (is_Some (m !! t) -> off t f (on t f m) = m) /\
  off t f m = m /\
  get_or_empty (off t f (on t f (on t f m))) t = get_or_empty m t ++ [f].
Proof.
  intros H. split; [|split; [|split]].
  - destruct parsed as [ty|]; [|reflexivity]. unfold handleMessage.
    rewrite !(off_on_get m t f _ H). reflexivity.
  - intros [arr Ha]. rewrite (on_present m t f arr Ha). unfold off.
    rewrite reg_insert_eq.
    assert (H' : ~ In f arr) by (unfold get_or_empty in H; rewrite Ha in H; exact H).
    rewrite (indexOf_app_first f arr [] H'), (splice1_app arr [] f), app_nil_r.
    rewrite reg_insert_insert. apply reg_insert_id. exact Ha.
  - apply off_notin. exact H.
  - unfold off at 1. rewrite on_lookup.
    assert (G : get_or_empty (on t f m) t = get_or_empty m t ++ [f]).
    { rewrite get_on, String.eqb_refl. reflexivity. }
    rewrite G, <- app_assoc. cbn [app].
    rewrite (indexOf_app_first f _ [f] H), (splice1_app _ [f] f).
    unfold get_or_empty at 1. rewrite reg_insert_eq. reflexivity.
Qed.

(** X16 (on, handleMessage, safeCall): registering [f] for type [t] adds
    exactly one call of [f] to the dispatch of each message of type [t],
    after the listeners registered for [t] before it and ahead of the
    wildcard listeners; when [t] is ["*"] it adds one call at the very end
    of the dispatch of every message (two for a message of type ["*"]);
    the dispatch of a message of any other type is unchanged. *)
Theorem on_adds_one_call (throws : cb -> bool) (t : string) (f : cb) (m : registry)
        (ty : option string) :
  map fst (handleMessage throws (Some ty) (on t f m)) =
    get_or_empty m (match ty with Some t' => t' | None => "" end)
    ++ (if String.eqb t (match ty with Some t' => t' | None => "" end) then [f] else [])
    ++ get_or_empty m "*" ++ (if String.eqb t "*" then [f] else []).
Proof.
  assert (Hm : forall l, map fst (map (safeCall throws) l) = l).
  { intros l. rewrite map_map. unfold safeCall. cbn [fst]. apply map_id. }
  unfold handleMessage. rewrite map_app, !Hm, !get_on.
  destruct (String.eqb t "*") eqn:E2;
    [apply String.eqb_eq in E2; subst t|];
    (destruct (String.eqb _ (match ty with Some t' => t' | None => "" end)) eqn:E1;
     [apply String.eqb_eq in E1; rewrite <- E1|]);
    rewrite ?app_nil_r, <- ?app_assoc; reflexivity.
Qed.

Lemma on_then_off_restores_witness :
  ~ In 2 (get_or_empty (on "offer" 1 ∅) "offer") /\
  handleMessage (fun _ => false) (Some (Some "offer")) (off "offer" 2 (on "offer" 2 (on "offer" 1 ∅)))
    = handleMessage (fun _ => false) (Some (Some "offer")) (on "offer" 1 ∅) /\
  (is_Some (on "offer" 1 ∅ !! "offer") -> off "offer" 2 (on "offer" 2 (on "offer" 1 ∅)) = on "offer" 1 ∅) /\
  off "offer" 2 (on "offer" 1 ∅) = on "offer" 1 ∅ /\
  get_or_empty (off "offer" 2 (on "offer" 2 (on "offer" 2 (on "offer" 1 ∅)))) "offer"
    = get_or_empty (on "offer" 1 ∅) "offer" ++ [2].
Proof.
  assert (H : ~ In 2 (get_or_empty (on "offer" 1 ∅) "offer")).
  { assert (E : get_or_empty (on "offer" 1 ∅) "offer" = [1]) by (vm_compute; reflexivity).
    rewrite E. intros [Hc|[]]. discriminate. }
  split; [exact H|].
  apply (on_then_off_restores (fun _ => false) (Some (Some "offer")) "offer" 2 (on "offer" 1 ∅)).
  exact H.
Defined.

Lemma on_adds_one_call_witness :
  map fst (handleMessage (fun f => Nat.eqb f 1) (Some (Some "offer")) (on "offer" 2 (on "*" 3 (on "offer" 1 ∅))))
    = [1; 2; 3] /\
  map fst (handleMessage (fun f => Nat.eqb f 1) (Some (Some "*")) (on "*" 2 (on "*" 3 ∅)))
    = [3; 2; 3; 2].
Proof.
  split.
  - exact (on_adds_one_call (fun f => Nat.eqb f 1) "offer" 2 (on "*" 3 (on "offer" 1 ∅)) (Some "offer")).
  - exact (on_adds_one_call (fun f => Nat.eqb f 1) "*" 2 (on "*" 3 ∅) (Some "*")).
Defined.

End ListenersFacts.

(* ------------------------------------------------------------------ *)
(** ** Properties of the peer-connection manager *)

Module OrchestratorMoreFacts.
Import Orchestrator OrchestratorMore.

Lemma well_named_ext st st' :
  peerConnections st' = peerConnections st -> next_handle st' = next_handle st ->
  well_named st -> well_named st'.
Proof. intros E1 E2. unfold well_named. rewrite E1, E2. exact (fun H => H). Qed.

Lemma well_named_empty ls n : well_named (mkMgr ∅ ls n).
Proof.
  split; cbn [peerConnections].
  - intros p rp Hp. rewrite lookup_empty in Hp. discriminate.
  - intros p q rp rq _ Hp. rewrite lookup_empty in Hp. discriminate.
Qed.

(** Filing a fresh connection object under [p], as both [create*Connection]
    methods do. *)
Lemma insert_fresh_well_named st p d ls n :
  well_named st -> next_handle st < n -> (forall dc, d = Some dc -> dc < n) ->
  well_named (mkMgr (<[p := mkPeer p (next_handle st) d]> (peerConnections st)) ls n).
Proof.
  intros [H1 H2] Hn Hd. split; cbn [peerConnections next_handle].
  - intros q rq Hq. destruct (decide (p = q)) as [<-|Hne].
    + rewrite lookup_insert_eq in Hq. injection Hq as <-. cbn [pid connection dataChannel].
      split; [reflexivity|split; [lia|exact Hd]].
    + rewrite lookup_insert_ne in Hq by exact Hne.
      destruct (H1 q rq Hq) as (A & B & C).
      split; [exact A|split; [lia|]]. intros dc Hdc. specialize (C dc Hdc). lia.
  - intros q1 q2 r1 r2 Hne L1 L2.
    destruct (decide (p = q1)) as [<-|N1]; destruct (decide (p = q2)) as [<-|N2].
    + contradiction.
    + rewrite lookup_insert_eq in L1. injection L1 as <-.
      rewrite lookup_insert_ne in L2 by exact N2. destruct (H1 q2 r2 L2) as (_ & B & _).
      cbn [connection]. lia.
    + rewrite lookup_insert_eq in L2. injection L2 as <-.
      rewrite lookup_insert_ne in L1 by exact N1. destruct (H1 q1 r1 L1) as (_ & B & _).
      cbn [connection]. lia.
    + rewrite lookup_insert_ne in L1 by exact N1. rewrite lookup_insert_ne in L2 by exact N2.
      exact (H2 q1 q2 r1 r2 Hne L1 L2).
Qed.

Lemma stopScreenShare_fields st :
  peerConnections (fst (stopScreenShare st)) = peerConnections st /\
  next_handle (fst (stopScreenShare st)) = next_handle st /\
  localStream (fst (stopScreenShare st)) = None /\
  snd (stopScreenShare st) = match localStream st with Some ts => ts | None => [] end.
Proof.
  unfold stopScreenShare. destruct (localStream st) eqn:E; cbn [fst snd];
    repeat split; try reflexivity. exact E.
Qed.

Lemma closeAll_state st : fst (fst (closeAllConnections st)) = mkMgr ∅ None (next_handle st).
Proof.
  unfold closeAllConnections, stopScreenShare. cbn [localStream].
  destruct (localStream st); reflexivity.
Qed.

Lemma closeAll_stopped st :
  snd (closeAllConnections st) = match localStream st with Some ts => ts | None => [] end.
Proof.
  unfold closeAllConnections, stopScreenShare. cbn [localStream].
  destruct (localStream st); reflexivity.
Qed.

Lemma closeAll_calls st :
  snd (fst (closeAllConnections st)) =
    flat_map (fun kv => close_calls (snd kv)) (map_to_list (peerConnections st)).
Proof.
  unfold closeAllConnections, stopScreenShare. cbn [localStream].
  destruct (localStream st); reflexivity.
Qed.

Lemma mstep_closeAll st :
  mstep MCloseAll st = (fst (fst (closeAllConnections st)), snd (fst (closeAllConnections st))).
Proof. unfold mstep. destruct (closeAllConnections st) as [[a b] c]. reflexivity. Qed.

Lemma mstep_well_named o st : well_named st -> well_named (fst (mstep o st)).
Proof.
  intros H. destruct o as [ts| |p|p|p|].
  - apply (well_named_ext st); [reflexivity|reflexivity|exact H].
  - destruct (stopScreenShare_fields st) as (E1 & E2 & _).
    apply (well_named_ext st); [exact E1|exact E2|exact H].
  - apply insert_fresh_well_named; [exact H|lia|]. intros dc Hdc. injection Hdc as <-. lia.
  - apply insert_fresh_well_named; [exact H|lia|]. intros dc Hdc. discriminate.
  - cbn [mstep]. unfold closePeerConnection.
    destruct (peerConnections st !! p) as [rp|] eqn:Ep; [|exact H].
    destruct H as [H1 H2]. split; cbn [fst peerConnections next_handle].
    + intros q rq Hq. apply lookup_delete_Some in Hq. exact (H1 q rq (proj2 Hq)).
    + intros q1 q2 r1 r2 Hne L1 L2. apply lookup_delete_Some in L1, L2.
      exact (H2 q1 q2 r1 r2 Hne (proj2 L1) (proj2 L2)).
  - rewrite mstep_closeAll. cbn [fst]. rewrite closeAll_state. apply well_named_empty.
Qed.

Lemma mrun_well_named os st : well_named st -> well_named (fst (mrun os st)).
Proof.
  revert st. induction os as [|o os IH]; intros st H; [exact H|].
  cbn [mrun]. pose proof (mstep_well_named o st H) as H1.
  destruct (mstep o st) as [st1 c1]. cbn [fst] in H1.
  specialize (IH st1 H1). destruct (mrun os st1) as [st2 c2]. exact IH.
Qed.

Lemma host_calls_no_close p st :
  Forall (fun a => is_close a = false) (snd (createHostConnection p st)).
Proof.
  unfold createHostConnection. cbn [snd].
  apply (proj2 (List.Forall_forall _ _)). intros a Ha.
  apply in_app_iff in Ha. destruct Ha as [[<-|[]]|Ha]; [reflexivity|].
  apply in_app_iff in Ha. destruct Ha as [Ha|[<-|[]]]; [|reflexivity].
  destruct (localStream st); [|destruct Ha].
  apply in_map_iff in Ha. destruct Ha as [x [<- _]]. reflexivity.
Qed.

Lemma replaced_connection_differs st p d n ls old :
  well_named st -> peerConnections st !! p = Some old ->
  forall q rq, peerConnections (mkMgr (<[p := mkPeer p (next_handle st) d]> (peerConnections st)) ls n) !! q = Some rq ->
  connection rq <> connection old.
Proof.
  intros [H1 H2] Hp q rq Hq. cbn [peerConnections] in Hq.
  destruct (H1 p old Hp) as (_ & Bo & _).
  destruct (decide (p = q)) as [<-|Hne].
  - rewrite lookup_insert_eq in Hq. injection Hq as <-. cbn [connection]. lia.
  - rewrite lookup_insert_ne in Hq by exact Hne.
    intros E. exact (H2 p q old rq Hne Hp Hq (eq_sym E)).
Qed.

Lemma in_flat_map_split {A B} (f : A -> list B) l x :
  In x l -> exists pre post, flat_map f l = pre ++ f x ++ post.
Proof.
  intros Hx. apply in_split in Hx. destruct Hx as (l1 & l2 & ->).
  exists (flat_map f l1), (flat_map f l2). rewrite flat_map_app. reflexivity.
Qed.

Lemma not_in_no_close h l :
  Forall (fun a => is_close a = false) l -> ~ In (AClose h) l.
Proof.
  intros H Hin. rewrite List.Forall_forall in H. specialize (H _ Hin). discriminate.
Qed.

Lemma close_calls_other h rp : connection rp <> h -> ~ In (AClose h) (close_calls rp).
Proof.
  intros Hne Hin. unfold close_calls in Hin. apply in_app_iff in Hin.
  destruct Hin as [Hin|[E|[]]].
  - destruct (dataChannel rp); [destruct Hin as [E|[]]; discriminate|destruct Hin].
  - injection E as E. exact (Hne E).
Qed.

Lemma insert_fresh_orphaned h st p d ls n :
  orphaned h st -> next_handle st < n ->
  orphaned h (mkMgr (<[p := mkPeer p (next_handle st) d]> (peerConnections st)) ls n).
Proof.
  intros [Hh Hq] Hn. split; cbn [next_handle peerConnections]; [lia|].
  intros q rq Hl. destruct (decide (p = q)) as [<-|Hne].
  - rewrite lookup_insert_eq in Hl. injection Hl as <-. cbn [connection]. lia.
  - rewrite lookup_insert_ne in Hl by exact Hne. exact (Hq q rq Hl).
Qed.

Lemma mstep_orphaned o st h :
  orphaned h st -> orphaned h (fst (mstep o st)) /\ ~ In (AClose h) (snd (mstep o st)).
Proof.
  intros Ho. destruct o as [ts| |p|p|p|].
  - split; [exact Ho|intros []].
  - destruct (stopScreenShare_fields st) as (E1 & E2 & _). cbn [mstep fst snd].
    split; [|intros []]. destruct Ho as [Hh Hq]. split; [rewrite E2; exact Hh|].
    rewrite E1. exact Hq.
  - split; [apply insert_fresh_orphaned; [exact Ho|lia]|].
    apply not_in_no_close. apply host_calls_no_close.
  - split; [apply insert_fresh_orphaned; [exact Ho|lia]|].
    intros [E|[]]. discriminate.
  - cbn [mstep]. unfold closePeerConnection.
    destruct (peerConnections st !! p) as [rp|] eqn:Ep; [|split; [exact Ho|intros []]].
    destruct Ho as [Hh Hq]. split.
    + split; cbn [fst next_handle peerConnections]; [exact Hh|].
      intros q rq Hl. apply lookup_delete_Some in Hl. exact (Hq q rq (proj2 Hl)).
    + cbn [snd]. apply (close_calls_other h rp). exact (Hq p rp Ep).
  - rewrite mstep_closeAll. cbn [fst snd]. rewrite closeAll_state, closeAll_calls. split.
    + split; cbn [next_handle peerConnections]; [exact (proj1 Ho)|].
      intros q rq Hl. rewrite lookup_empty in Hl. discriminate.
    + intros Hin. apply in_flat_map in Hin. destruct Hin as [[q rq] [Hkv Hin]].
      apply list_elem_of_In, elem_of_map_to_list in Hkv.
      exact (close_calls_other h rq (proj2 Ho q rq Hkv) Hin).
Qed.

Lemma mrun_orphaned os st h : orphaned h st -> ~ In (AClose h) (snd (mrun os st)).
Proof.
  revert st. induction os as [|o os IH]; intros st Ho; [intros []|].
  cbn [mrun]. destruct (mstep_orphaned o st h Ho) as [Ho1 Hn1].
  destruct (mstep o st) as [st1 c1]. cbn [fst snd] in Ho1, Hn1.
  specialize (IH st1 Ho1). destruct (mrun os st1) as [st2 c2]. cbn [snd].
  intros Hin. apply in_app_iff in Hin. destruct Hin as [Hin|Hin]; [exact (Hn1 Hin)|exact (IH Hin)].
Qed.

Lemma replaced_connection_orphaned st p d n ls old :
  well_named st -> peerConnections st !! p = Some old -> next_handle st < n ->
  orphaned (connection old) (mkMgr (<[p := mkPeer p (next_handle st) d]> (peerConnections st)) ls n).
Proof.
  intros Hw Hp Hn. split.
  - cbn [next_handle]. destruct (proj1 Hw p old Hp) as (_ & B & _). lia.
  - exact (replaced_connection_differs st p d n ls old Hw Hp).
Qed.

(** X17 (closePeerConnection): closing a known peer closes its data channel
    (when it has one) before its connection; afterwards the peer is unknown
    to [addIceCandidate] and [setRemoteDescription], which throw
    ["Peer connection not found"], it has no data channel, no other peer's
    record changes, and closing it a second time does nothing. *)
Theorem close_peer_forgets_peer (st : mgr) (b : browser) (p c d : string) (rp : peer) :
  peerConnections st !! p = Some rp ->
  channel_before_close (snd (closePeerConnection p st)) rp /\
  fst (addIceCandidate p c (fst (closePeerConnection p st)) b) = Throw "Peer connection not found" /\
  fst (fst (setRemoteDescription p d (fst (closePeerConnection p st)) b))
    = Throw "Peer connection not found" /\
  getDataChannel p (fst (closePeerConnection p st)) = None /\
  (forall q, q <> p ->
     peerConnections (fst (closePeerConnection p st)) !! q = peerConnections st !! q) /\
  closePeerConnection p (fst (closePeerConnection p st)) = (fst (closePeerConnection p st), []).
Proof.
  intros Hp.
  assert (Ec : closePeerConnection p st =
              (mkMgr (delete p (peerConnections st)) (localStream st) (next_handle st), close_calls rp))
    by (unfold closePeerConnection; rewrite Hp; reflexivity).
  rewrite Ec. cbn [fst snd].
  split; [|split; [|split; [|split; [|split]]]].
  - exists [], []. reflexivity.
  - unfold addIceCandidate. cbn [peerConnections]. rewrite lookup_delete_eq. reflexivity.
  - unfold setRemoteDescription. cbn [peerConnections]. rewrite lookup_delete_eq. reflexivity.
  - unfold getDataChannel. cbn [peerConnections]. rewrite lookup_delete_eq. reflexivity.
  - intros q Hq. cbn [peerConnections]. apply lookup_delete_ne. intros E. apply Hq. symmetry. exact E.
  - unfold closePeerConnection. cbn [peerConnections]. rewrite lookup_delete_eq. reflexivity.
Qed.

(** X18 (createHostConnection, createViewerConnection): creating a
    connection for a peer that already has one files the new record over
    the old one without closing anything, so the old connection object is
    no longer held by any peer record, and no later sequence of manager
    calls (creating, closing one or all connections, screen sharing) ever
    closes it. *)
Theorem recreate_orphans_connection (st : mgr) (p : string) (old : peer) :
  well_named st -> peerConnections st !! p = Some old ->
  Forall (fun a => is_close a = false) (snd (createHostConnection p st)) /\
  Forall (fun a => is_close a = false) (snd (createViewerConnection p st)) /\
  (forall q rq, peerConnections (fst (createHostConnection p st)) !! q = Some rq ->
     connection rq <> connection old) /\
  (forall q rq, peerConnections (fst (createViewerConnection p st)) !! q = Some rq ->
     connection rq <> connection old) /\
  (forall os, ~ In (AClose (connection old))
                  (snd (createHostConnection p st) ++ snd (mrun os (fst (createHostConnection p st))))) /\
  (forall os, ~ In (AClose (connection old))
                  (snd (createViewerConnection p st) ++ snd (mrun os (fst (createViewerConnection p st))))).
Proof.
  intros Hw Hp. split; [|split; [|split; [|split; [|split]]]].
  - apply host_calls_no_close.
  - constructor; [reflexivity|constructor].
  - exact (replaced_connection_differs st p _ _ _ old Hw Hp).
  - exact (replaced_connection_differs st p _ _ _ old Hw Hp).
  - intros os Hin. apply in_app_iff in Hin. destruct Hin as [Hin|Hin].
    + exact (not_in_no_close _ _ (host_calls_no_close p st) Hin).
    + refine (mrun_orphaned os _ _ _ Hin).
      apply replaced_connection_orphaned; [exact Hw|exact Hp|lia].
  - intros os Hin. apply in_app_iff in Hin. destruct Hin as [[E|[]]|Hin]; [discriminate|].
    refine (mrun_orphaned os _ _ _ Hin).
    apply replaced_connection_orphaned; [exact Hw|exact Hp|lia].
Qed.

(** X19 (getDataChannel, sendMessage): a viewer connection holds no data
    channel, so [sendMessage] to that peer sends nothing whatever the
    channel states; a host connection holds the channel it created, and a
    message to that peer is sent on it exactly when it is open; after
    [closePeerConnection] nothing is sent to the peer. *)
Theorem only_host_links_carry_chat (dcOpen : handle -> bool) (st : mgr) (p msg : string) :
  getDataChannel p (fst (createViewerConnection p st)) = None /\
  sendMessage dcOpen p msg (fst (createViewerConnection p st)) = [] /\
  getDataChannel p (fst (createHostConnection p st)) = Some (S (next_handle st)) /\
  sendMessage dcOpen p msg (fst (createHostConnection p st)) =
    (if dcOpen (S (next_handle st)) then [DSend (S (next_handle st)) msg] else []) /\
  sendMessage dcOpen p msg (fst (closePeerConnection p st)) = [].
Proof.
  unfold getDataChannel, sendMessage, createViewerConnection, createHostConnection.
  cbn [fst peerConnections]. rewrite !lookup_insert_eq. cbn [dataChannel].
  split; [reflexivity|split; [reflexivity|split; [reflexivity|split; [reflexivity|]]]].
  unfold closePeerConnection. destruct (peerConnections st !! p) as [rp|] eqn:Ep.
  - cbn [fst peerConnections]. rewrite lookup_delete_eq. reflexivity.
  - cbn [fst]. rewrite Ep. reflexivity.
Qed.

(** X20 (createHostConnection, createViewerConnection, closePeerConnection,
    closeAllConnections, startScreenShare, stopScreenShare): from a fresh
    manager, after any sequence of these calls every record is filed
    under its own peer id, and distinct peers hold distinct connection
    objects. *)
Theorem distinct_peers_distinct_connections (os : list mop) :
  well_named (fst (mrun os init)).
Proof.
  apply mrun_well_named. apply well_named_empty.
Qed.

(** X21 (closeAllConnections, stopScreenShare): closing everything leaves no
    peer and no captured stream, stops exactly the tracks of the stream
    that was captured, makes only close calls, closes every peer's data
    channel before its connection, and a host connection created afterwards
    adds no track. *)
Theorem close_all_releases_everything (st : mgr) (p : string) :
  fst (fst (closeAllConnections st)) = mkMgr ∅ None (next_handle st) /\
  snd (closeAllConnections st) = match localStream st with Some ts => ts | None => [] end /\
  Forall (fun a => is_close a = true) (snd (fst (closeAllConnections st))) /\
  (forall q rq, peerConnections st !! q = Some rq ->
     channel_before_close (snd (fst (closeAllConnections st))) rq) /\
  Forall (fun a => is_track a = false)
         (snd (createHostConnection p (fst (fst (closeAllConnections st))))).
Proof.
  split; [exact (closeAll_state st)|split; [exact (closeAll_stopped st)|split; [|split]]].
  - rewrite closeAll_calls. apply (proj2 (List.Forall_forall _ _)). intros a Ha.
    apply in_flat_map in Ha. destruct Ha as [kv [_ Ha]]. unfold close_calls in Ha.
    apply in_app_iff in Ha. destruct Ha as [Ha|[<-|[]]]; [|reflexivity].
    destruct (dataChannel (snd kv)); [destruct Ha as [<-|[]]; reflexivity|destruct Ha].
  - intros q rq Hq. rewrite closeAll_calls.
    assert (Hin : In (q, rq) (map_to_list (peerConnections st))).
    { apply list_elem_of_In. apply elem_of_map_to_list. exact Hq. }
    destruct (in_flat_map_split (fun kv => close_calls (snd kv)) _ _ Hin) as (pre & post & E).
    rewrite E. exists pre, post. cbn [snd]. unfold close_calls. rewrite <- app_assoc. reflexivity.
  - rewrite closeAll_state. unfold createHostConnection. cbn [snd localStream].
    repeat constructor.
Qed.

Lemma close_peer_forgets_peer_witness :
  peerConnections (fst (createHostConnection "v1" init)) !! "v1" = Some (mkPeer "v1" 0 (Some 1)) /\
  channel_before_close (snd (closePeerConnection "v1" (fst (createHostConnection "v1" init))))
                       (mkPeer "v1" 0 (Some 1)) /\
  fst (addIceCandidate "v1" "cand" (fst (closePeerConnection "v1" (fst (createHostConnection "v1" init))))
         fresh_browser)
    = Throw "Peer connection not found" /\
  fst (fst (setRemoteDescription "v1" "sdp" (fst (closePeerConnection "v1" (fst (createHostConnection "v1" init))))
              fresh_browser))
    = Throw "Peer connection not found" /\
  getDataChannel "v1" (fst (closePeerConnection "v1" (fst (createHostConnection "v1" init)))) = None /\
  (forall q, q <> "v1" ->
     peerConnections (fst (closePeerConnection "v1" (fst (createHostConnection "v1" init)))) !! q
     = peerConnections (fst (createHostConnection "v1" init)) !! q) /\
  closePeerConnection "v1" (fst (closePeerConnection "v1" (fst (createHostConnection "v1" init))))
    = (fst (closePeerConnection "v1" (fst (createHostConnection "v1" init))), []).
Proof.
  assert (H : peerConnections (fst (createHostConnection "v1" init)) !! "v1" = Some (mkPeer "v1" 0 (Some 1))).
  { vm_compute. reflexivity. }
  split; [exact H|].
  exact (close_peer_forgets_peer (fst (createHostConnection "v1" init)) fresh_browser
           "v1" "cand" "sdp" _ H).
Defined.

Lemma recreate_orphans_connection_witness :
  well_named (fst (createHostConnection "v1" init)) /\
  peerConnections (fst (createHostConnection "v1" init)) !! "v1" = Some (mkPeer "v1" 0 (Some 1)) /\
  Forall (fun a => is_close a = false) (snd (createHostConnection "v1" (fst (createHostConnection "v1" init)))) /\
  Forall (fun a => is_close a = false) (snd (createViewerConnection "v1" (fst (createHostConnection "v1" init)))) /\
  (forall q rq, peerConnections (fst (createHostConnection "v1" (fst (createHostConnection "v1" init)))) !! q = Some rq ->
     connection rq <> 0) /\
  (forall q rq, peerConnections (fst (createViewerConnection "v1" (fst (createHostConnection "v1" init)))) !! q = Some rq ->
     connection rq <> 0) /\
  (forall os, ~ In (AClose 0)
     (snd (createHostConnection "v1" (fst (createHostConnection "v1" init)))
      ++ snd (mrun os (fst (createHostConnection "v1" (fst (createHostConnection "v1" init))))))) /\
  (forall os, ~ In (AClose 0)
     (snd (createViewerConnection "v1" (fst (createHostConnection "v1" init)))
      ++ snd (mrun os (fst (createViewerConnection "v1" (fst (createHostConnection "v1" init))))))).
Proof.
  assert (Hw : well_named (fst (createHostConnection "v1" init))).
  { exact (mstep_well_named (MHost "v1") init (well_named_empty None 0)). }
  assert (H : peerConnections (fst (createHostConnection "v1" init)) !! "v1" = Some (mkPeer "v1" 0 (Some 1))).
  { vm_compute. reflexivity. }
  split; [exact Hw|split; [exact H|]].
  exact (recreate_orphans_connection (fst (createHostConnection "v1" init)) "v1" (mkPeer "v1" 0 (Some 1)) Hw H).
Defined.

Lemma only_host_links_carry_chat_witness :
  getDataChannel "v1" (fst (createViewerConnection "v1" init)) = None /\
  sendMessage (fun _ => true) "v1" "hi" (fst (createViewerConnection "v1" init)) = [] /\
  getDataChannel "v1" (fst (createHostConnection "v1" init)) = Some 1 /\
  sendMessage (fun _ => true) "v1" "hi" (fst (createHostConnection "v1" init)) = [DSend 1 "hi"] /\
  sendMessage (fun _ => true) "v1" "hi" (fst (closePeerConnection "v1" init)) = [].
Proof. exact (only_host_links_carry_chat (fun _ => true) init "v1" "hi"). Defined.

Lemma distinct_peers_distinct_connections_witness :
  well_named (fst (mrun [MShare ["screen"]; MHost "v1"; MHost "v2"; MClose "v1"; MHost "v1"] init)).
Proof. exact (distinct_peers_distinct_connections [MShare ["screen"]; MHost "v1"; MHost "v2"; MClose "v1"; MHost "v1"]). Defined.

Lemma close_all_releases_everything_witness :
  let st := fst (mrun [MShare ["screen"]; MHost "v1"; MHost "v2"] init) in
  fst (fst (closeAllConnections st)) = mkMgr ∅ None 4 /\
  snd (closeAllConnections st) = ["screen"] /\
  Forall (fun a => is_close a = true) (snd (fst (closeAllConnections st))) /\
  (forall q rq, peerConnections st !! q = Some rq ->
     channel_before_close (snd (fst (closeAllConnections st))) rq) /\
  Forall (fun a => is_track a = false) (snd (createHostConnection "v3" (fst (fst (closeAllConnections st))))).
Proof.
  exact (close_all_releases_everything (fst (mrun [MShare ["screen"]; MHost "v1"; MHost "v2"] init)) "v3").
Defined.

End OrchestratorMoreFacts.
